(** * Ocean AI POC: ingestion and retrieval pipelines

    A shallow embedding of [ingest.py] ([DocumentIngestor]) and
    [rag_retriever.py] ([OceanRAGRetriever]).

    Conventions of the embedding:
    - Python [int] is [Z]; Python [float] (similarity scores, thresholds,
      vector components) is abstracted to the rationals [Q], so NaN and
      rounding of the binary representation are outside the model;
    - Python [str] is [string]; characters are 8-bit and [str.lower]
      is the ASCII case folding;
    - a Python [dict] with string keys is a [gmap string JValue];
    - the PostgreSQL tables are lists of rows in insertion order, with
      the SERIAL counters kept next to them;
    - the external capabilities (file system, PDF reader, text splitter,
      tokenizer, embedding and chat endpoints, the vector distance
      operator, whether the store accepts connections) are the fields
      of one record [Env];
    - [print] appends a structured message to a log. *)

From Stdlib Require Import ZArith QArith String Ascii List Sorted Lia.
From stdpp Require Import gmap strings list.

Local Open Scope Z_scope.
Local Open Scope string_scope.

(** ** Strings *)

Module Str.

(** [str.lower] on one character. *)
Definition lower_char (c : ascii) : ascii :=
  let n := nat_of_ascii c in
  if (65 <=? n)%nat && (n <=? 90)%nat then ascii_of_nat (n + 32) else c.

(** [s.lower()] *)
Fixpoint lower (s : string) : string :=
  match s with
  | EmptyString => EmptyString
  | String c s' => String (lower_char c) (lower s')
  end.

(** [t in s] for two strings: [t] occurs in [s] as a substring. *)
Fixpoint contains (t s : string) : bool :=
  match s with
  | EmptyString => String.prefix t EmptyString
  | String _ s' => String.prefix t s || contains t s'
  end.

(** The line feed, written [\n] in the source. *)
Definition LF : string := String (ascii_of_nat 10) EmptyString.

(** [len(s)] *)
Definition len (s : string) : Z := Z.of_nat (String.length s).

(** Characters removed by [str.strip()]. *)
Definition is_space (c : ascii) : bool :=
  let n := nat_of_ascii c in
  ((9 <=? n)%nat && (n <=? 13)%nat) || ((28 <=? n)%nat && (n <=? 32)%nat).

Fixpoint lstrip (s : string) : string :=
  match s with
  | EmptyString => EmptyString
  | String c s' => if is_space c then lstrip s' else s
  end.

Fixpoint rstrip (s : string) : string :=
  match s with
  | EmptyString => EmptyString
  | String c s' =>
      match rstrip s' with
      | EmptyString => if is_space c then EmptyString else String c EmptyString
      | r => String c r
      end
  end.

(** [s.strip()] *)
Definition strip (s : string) : string := rstrip (lstrip s).

(** [sep.join(parts)] *)
Definition join (sep : string) (parts : list string) : string :=
  String.concat sep parts.

(** Truthiness of a string: [bool(s)]. *)
Definition truthy (s : string) : bool :=
  match s with EmptyString => false | _ => true end.

End Str.

(** ** JSON-like values held in metadata dictionaries *)

Inductive JValue : Type :=
| JStr (s : string)
| JInt (z : Z)
| JList (l : list string).

(** [d[key].append(v)]; the key always holds a list where the source
    appends, any other shape leaves the dictionary as it is. *)
Definition dict_append (key v : string) (d : gmap string JValue) : gmap string JValue :=
  match d !! key with
  | Some (JList l) => <[key := JList (l ++ [v])]> d
  | _ => d
  end.

(** ** MetadataExtractor: [DocumentIngestor.extract_metadata_from_filename] *)

(** The dictionary literal [geographic_terms], in insertion order. *)
Definition geographic_terms : list (string * string) :=
  [ ("baltic", "Baltic Sea");
    ("north sea", "North Sea");
    ("mediterranean", "Mediterranean Sea");
    ("atlantic", "Atlantic Ocean");
    ("pacific", "Pacific Ocean");
    ("arctic", "Arctic Ocean") ].

(** The dictionary literal [ocean_topics], in insertion order. *)
Definition ocean_topics : list (string * string) :=
  [ ("seagrass", "seagrass_restoration");
    ("coral", "coral_conservation");
    ("biodiversity", "marine_biodiversity");
    ("carbon", "blue_carbon");
    ("plastic", "marine_pollution");
    ("fishing", "sustainable_fisheries");
    ("renewable", "offshore_renewable_energy") ].

(** [any(term in filename_lower for term in terms)] *)
Definition any_term_in (terms : list string) (filename_lower : string) : bool :=
  existsb (fun term => Str.contains term filename_lower) terms.

(** The loop over [geographic_terms.items()], which breaks at the first hit. *)
Fixpoint geographic_loop (items : list (string * string)) (filename_lower : string)
    (metadata : gmap string JValue) : gmap string JValue :=
  match items with
  | [] => metadata
  | (term, region) :: rest =>
      if Str.contains term filename_lower
      then <["geographic_focus" := JStr region]> metadata
      else geographic_loop rest filename_lower metadata
  end.

(** The loop over [ocean_topics.items()], which appends every hit. *)
Fixpoint topics_loop (items : list (string * string)) (filename_lower : string)
    (metadata : gmap string JValue) : gmap string JValue :=
  match items with
  | [] => metadata
  | (term, topic) :: rest =>
      if Str.contains term filename_lower
      then topics_loop rest filename_lower (dict_append "topics" topic metadata)
      else topics_loop rest filename_lower metadata
  end.

Definition extract_metadata_from_filename (filename : string) : gmap string JValue :=
  let metadata : gmap string JValue := ∅ in
  let filename_lower := Str.lower filename in
  let metadata :=
    if any_term_in ["sustainability"; "esg"; "csr"] filename_lower
    then <["doc_type" := JStr "sustainability_report"]> metadata
    else if any_term_in ["annual"; "quarterly"; "financial"] filename_lower
    then <["doc_type" := JStr "company_report"]> metadata
    else if Str.contains "esrs" filename_lower
            || Str.contains "european sustainability reporting" filename_lower
    then <["doc_type" := JStr "esrs_document"]> metadata
    else <["doc_type" := JStr "unknown"]> metadata in
  let metadata := geographic_loop geographic_terms filename_lower metadata in
  let metadata := <["topics" := JList []]> metadata in
  topics_loop ocean_topics filename_lower metadata.

(** *** The rule table of the specification

    The same rules written as ordered tables of (keywords, value), and
    the two evaluation disciplines the specification names. *)

Module Rules.

Definition rule : Type := list string * string.

Definition doc_type_rules : list rule :=
  [ (["sustainability"; "esg"; "csr"], "sustainability_report");
    (["annual"; "quarterly"; "financial"], "company_report");
    (["esrs"; "european sustainability reporting"], "esrs_document") ].

Definition geographic_rules : list rule :=
  map (fun kv => ([kv.1], kv.2)) geographic_terms.

Definition topic_rules : list rule :=
  map (fun kv => ([kv.1], kv.2)) ocean_topics.

(** A rule matches when one of its keywords is a substring of the
    lower-cased filename. *)
Definition matches (filename_lower : string) (r : rule) : bool :=
  existsb (fun term => Str.contains term filename_lower) r.1.

(** First matching rule in declared order. *)
Definition first_match (rules : list rule) (filename_lower : string) : option string :=
  snd <$> List.find (matches filename_lower) rules.

(** Every matching rule, in declared order. *)
Definition all_matches (rules : list rule) (filename_lower : string) : list string :=
  map snd (List.filter (matches filename_lower) rules).

(** The dictionary the specification describes for a lower-cased
    filename: [doc_type] with its default, [geographic_focus] only
    when a rule matches, [topics] always. *)
Definition extract (filename_lower : string) : gmap string JValue :=
  let base : gmap string JValue :=
    <["topics" := JList (all_matches topic_rules filename_lower)]>
      {[ "doc_type" :=
           JStr (default "unknown" (first_match doc_type_rules filename_lower)) ]} in
  match first_match geographic_rules filename_lower with
  | Some region => <["geographic_focus" := JStr region]> base
  | None => base
  end.

End Rules.

(** ** The document store

    The two tables of [database_setup.py]. [upload_date] and
    [created_at] are never read by the pipelines and are left out. *)

Record Document : Type := {
  d_id : Z;
  d_filename : string;
  d_doc_type : string;
  d_organization : option string;
  d_file_size : Z;
  d_metadata : gmap string JValue
}.

Record Chunk : Type := {
  c_id : Z;
  c_doc_id : Z;
  c_chunk_index : Z;
  c_content : string;
  c_embedding : list Q;
  c_token_count : Z;
  c_metadata : gmap string JValue
}.

Record Store : Type := {
  documents : list Document;
  chunks : list Chunk;
  next_document_id : Z;
  next_chunk_id : Z
}.

Definition empty_store : Store :=
  {| documents := []; chunks := []; next_document_id := 1; next_chunk_id := 1 |}.

(** ** The environment *)

(** What [pathlib], the operating system and PyPDF2 report for a path. *)
Record FileInfo : Type := {
  f_name : string;                      (* file_path.name *)
  f_suffix : string;                    (* file_path.suffix *)
  f_size : Z;                           (* file_path.stat().st_size *)
  f_pdf_pages : option (list string);   (* page.extract_text() per page; None: the reader raises *)
  f_text : option string                (* f.read() as utf-8; None: open or read raises *)
}.

Record Env : Type := {
  db_accepts : bool;                                  (* psycopg2.connect succeeds *)
  fs : string -> option FileInfo;                     (* None: the path does not exist *)
  split_text : string -> list string;                 (* RecursiveCharacterTextSplitter.split_text *)
  encode_length : string -> Z;                        (* len(encoding.encode(text)) *)
  embeddings_create : list string -> option (list (list Q));  (* None: the call raises *)
  cosine_distance : list Q -> list Q -> Q;            (* pgvector's <=> *)
  execute_fails : list Q -> Z -> bool;                (* cursor.execute raises for another reason *)
  rag_prompt_md : option string;                      (* None: FileNotFoundError *)
  str_format : string -> string -> string -> option string;  (* template.format(context=, question=); None: it raises *)
  chat_model : string;
  chat_create : string -> string + (string * gmap string Z)  (* inl e: the call raises e *)
}.

(** ** Effects: exceptions, the store, and printed output *)

Inductive Exn : Type :=
| OperationalError      (* psycopg2.connect *)
| FormatError.          (* str.format on a template read from disk *)

Inductive Msg : Type :=
| ErrorExtractingText (pdf_path : string)
| ErrorCreatingEmbeddings
| FileNotFound (file_path : string)
| AlreadyExistsSkipping (filename : string)
| IngestingDocument (filename : string)
| ErrorReadingFile (file_path : string)
| NoTextExtracted (filename : string)
| CreatedChunks (n : Z) (filename : string)
| CreatedEmbeddingsFor (first last : Z)
| EmbeddingCountMismatch (expected got : Z)
| SuccessfullyIngested (filename : string) (n : Z)
| ErrorCreatingQueryEmbedding
| ErrorSearchingChunks
| PrintedQuery
| PrintedParams (query_embedding : list Q) (limit : Z).

Record State : Type := {
  db : Store;
  out : list Msg
}.

Inductive Res (A : Type) : Type :=
| Ok (a : A)
| Raise (e : Exn).
Arguments Ok {A} a.
Arguments Raise {A} e.

Definition M (A : Type) : Type := State -> Res A * State.

Definition ret {A} (a : A) : M A := fun s => (Ok a, s).

Definition bind {A B} (m : M A) (k : A -> M B) : M B :=
  fun s =>
    match m s with
    | (Ok a, s') => k a s'
    | (Raise e, s') => (Raise e, s')
    end.

Declare Scope py_scope.
Delimit Scope py_scope with py.
Notation "'let*' x ':=' m 'in' k" := (bind m (fun x => k))
  (at level 10, x name, m at level 100, k at level 200) : py_scope.
Notation "m ';;' k" := (bind m (fun _ => k))
  (at level 100, k at level 200, right associativity) : py_scope.
Local Open Scope py_scope.

Definition raise {A} (e : Exn) : M A := fun s => (Raise e, s).

Definition print (m : Msg) : M unit :=
  fun s => (Ok tt, {| db := db s; out := out s ++ [m] |}).

Definition get_store : M Store := fun s => (Ok (db s), s).

Definition put_store (st : Store) : M unit :=
  fun s => (Ok tt, {| db := st; out := out s |}).

(** [get_db_connection]: raises when the store refuses the connection. *)
Definition get_db_connection (env : Env) : M unit :=
  if db_accepts env then ret tt else raise OperationalError.

(** ** DocumentIngestor *)

(** [text += page.extract_text() + "\n"] over the pages. *)
Fixpoint concat_pages (pages : list string) (text : string) : string :=
  match pages with
  | [] => text
  | page :: rest => concat_pages rest (text ++ page ++ Str.LF)
  end.

Definition extract_text_from_pdf (pdf_path : string) (f : FileInfo) : M string :=
  match f_pdf_pages f with
  | Some pages => ret (Str.strip (concat_pages pages ""))
  | None => print (ErrorExtractingText pdf_path) ;; ret ""
  end.

Definition count_tokens (env : Env) (text : string) : Z := encode_length env text.

Definition create_embeddings (env : Env) (texts : list string) : M (list (list Q)) :=
  match embeddings_create env texts with
  | Some data => ret data
  | None => print ErrorCreatingEmbeddings ;; ret []
  end.

(** [SELECT id FROM documents WHERE filename = %s AND file_size = %s],
    then [fetchone() is not None]. *)
Definition document_exists (env : Env) (filename : string) (file_size : Z) : M bool :=
  get_db_connection env ;;
  let* st := get_store in
  let result :=
    List.find (fun d => String.eqb (d_filename d) filename && Z.eqb (d_file_size d) file_size)
              (documents st) in
  ret (match result with Some _ => true | None => false end).

(** [INSERT INTO documents ... RETURNING id] and commit. *)
Definition store_document (env : Env) (filename doc_type : string)
    (organization : option string) (file_size : Z)
    (metadata : gmap string JValue) : M Z :=
  get_db_connection env ;;
  let* st := get_store in
  let doc_id := next_document_id st in
  put_store {| documents := documents st ++
                 [ {| d_id := doc_id; d_filename := filename; d_doc_type := doc_type;
                      d_organization := organization; d_file_size := file_size;
                      d_metadata := metadata |} ];
               chunks := chunks st;
               next_document_id := doc_id + 1;
               next_chunk_id := next_chunk_id st |} ;;
  ret doc_id.

(** [zip(chunks, embeddings, chunk_metadata)] *)
Fixpoint zip3 {A B C} (l1 : list A) (l2 : list B) (l3 : list C) : list (A * B * C) :=
  match l1, l2, l3 with
  | a :: l1', b :: l2', c :: l3' => (a, b, c) :: zip3 l1' l2' l3'
  | _, _, _ => []
  end.

(** [enumerate(l)], counting from [i]. *)
Fixpoint enumerate_from {A} (i : Z) (l : list A) : list (Z * A) :=
  match l with
  | [] => []
  | a :: l' => (i, a) :: enumerate_from (i + 1) l'
  end.

Definition enumerate {A} (l : list A) : list (Z * A) := enumerate_from 0 l.

(** One [INSERT INTO chunks] of the loop in [store_chunks]. *)
Definition insert_chunk (env : Env) (doc_id : Z)
    (row : Z * (string * list Q * gmap string JValue)) (st : Store) : Store :=
  let '(i, (chunk, embedding, metadata)) := row in
  let token_count := count_tokens env chunk in
  {| documents := documents st;
     chunks := chunks st ++
       [ {| c_id := next_chunk_id st; c_doc_id := doc_id; c_chunk_index := i;
            c_content := chunk; c_embedding := embedding;
            c_token_count := token_count; c_metadata := metadata |} ];
     next_document_id := next_document_id st;
     next_chunk_id := next_chunk_id st + 1 |}.

Definition store_chunks (env : Env) (doc_id : Z) (chunks : list string)
    (embeddings : list (list Q)) (chunk_metadata : list (gmap string JValue)) : M unit :=
  get_db_connection env ;;
  let* st := get_store in
  put_store (fold_left (fun st row => insert_chunk env doc_id row st)
                       (enumerate (zip3 chunks embeddings chunk_metadata)) st).

(** [range(0, stop, step)] as list positions. *)
Definition range_step (stop step : nat) : list nat :=
  map (fun k => (k * step)%nat) (seq 0 ((stop + step - 1) / step)).

Definition batch_size : nat := 100.

(** The batch loop of [ingest_document]; [starts] is what remains of
    [range(0, len(chunks), batch_size)]. *)
Fixpoint embed_batches (env : Env) (starts : list nat) (chunks : list string)
    (all_embeddings : list (list Q)) : M (list (list Q)) :=
  match starts with
  | [] => ret all_embeddings
  | i :: rest =>
      let batch_chunks := take batch_size (drop i chunks) in
      let* batch_embeddings := create_embeddings env batch_chunks in
      print (CreatedEmbeddingsFor (Z.of_nat i + 1)
               (Z.min (Z.of_nat i + Z.of_nat batch_size) (Z.of_nat (length chunks)))) ;;
      embed_batches env rest chunks (all_embeddings ++ batch_embeddings)
  end.

(** [metadata.get('doc_type', 'unknown')]; the key always holds a string. *)
Definition get_doc_type (metadata : gmap string JValue) : string :=
  match metadata !! "doc_type" with
  | Some (JStr s) => s
  | _ => "unknown"
  end.

Definition make_chunk_metadata (metadata : gmap string JValue) (filename : string)
    (chunks : list string) : list (gmap string JValue) :=
  map (fun ic => <["source_file" := JStr filename]> (<["chunk_index" := JInt ic.1]> metadata))
      (enumerate chunks).

(** The part of [ingest_document] after the text has been read. *)
Definition ingest_text (env : Env) (filename : string) (file_size : Z)
    (organization : option string) (text : string) : M bool :=
  if negb (Str.truthy (Str.strip text)) then
    print (NoTextExtracted filename) ;; ret false
  else
    let metadata := extract_metadata_from_filename filename in
    let doc_type := get_doc_type metadata in
    let* doc_id := store_document env filename doc_type organization file_size metadata in
    let chunks := split_text env text in
    print (CreatedChunks (Z.of_nat (length chunks)) filename) ;;
    let chunk_metadata := make_chunk_metadata metadata filename chunks in
    let* all_embeddings :=
      embed_batches env (range_step (length chunks) batch_size) chunks [] in
    if negb (Nat.eqb (length all_embeddings) (length chunks)) then
      print (EmbeddingCountMismatch (Z.of_nat (length chunks))
                                    (Z.of_nat (length all_embeddings))) ;;
      ret false
    else
      store_chunks env doc_id chunks all_embeddings chunk_metadata ;;
      print (SuccessfullyIngested filename (Z.of_nat (length chunks))) ;;
      ret true.

Definition ingest_document (env : Env) (file_path : string)
    (organization : option string) : M bool :=
  match fs env file_path with
  | None => print (FileNotFound file_path) ;; ret false
  | Some f =>
      let filename := f_name f in
      let file_size := f_size f in
      let* already := document_exists env filename file_size in
      if already then
        print (AlreadyExistsSkipping filename) ;; ret true
      else
        print (IngestingDocument filename) ;;
        if String.eqb (Str.lower (f_suffix f)) ".pdf" then
          let* text := extract_text_from_pdf file_path f in
          ingest_text env filename file_size organization text
        else
          match f_text f with
          | Some text => ingest_text env filename file_size organization text
          | None => print (ErrorReadingFile file_path) ;; ret false
          end
  end.

(** ** OceanRAGRetriever *)

Module SearchResult.
Record t : Type := {
  content : string;
  doc_id : Z;
  chunk_id : Z;
  filename : string;
  organization : option string;
  doc_type : string;
  similarity_score : Q;
  metadata : gmap string JValue
}.
End SearchResult.

(** A row of the ranking query, keyed as [RealDictCursor] returns it. *)
Module Row.
Record t : Type := {
  content : string;
  chunk_id : Z;
  doc_id : Z;
  chunk_metadata : gmap string JValue;
  filename : string;
  organization : option string;
  doc_type : string;
  doc_metadata : gmap string JValue;
  similarity_score : Q
}.
End Row.

Definition create_query_embedding (env : Env) (query : string) : M (list Q) :=
  match embeddings_create env [query] with
  | Some (embedding :: _) => ret embedding
  | _ => print ErrorCreatingQueryEmbedding ;; ret []
  end.

(** [FROM chunks c JOIN documents d ON c.doc_id = d.id] with the
    selected columns; [1 - (c.embedding <=> query)] is the score. *)
Definition joined_rows (env : Env) (st : Store) (query_embedding : list Q) : list Row.t :=
  flat_map
    (fun c =>
       map (fun d =>
              {| Row.content := c_content c;
                 Row.chunk_id := c_id c;
                 Row.doc_id := c_doc_id c;
                 Row.chunk_metadata := c_metadata c;
                 Row.filename := d_filename d;
                 Row.organization := d_organization d;
                 Row.doc_type := d_doc_type d;
                 Row.doc_metadata := d_metadata d;
                 Row.similarity_score :=
                   (1 - cosine_distance env (c_embedding c) query_embedding)%Q |})
           (List.filter (fun d => Z.eqb (c_doc_id c) (d_id d)) (documents st)))
    (chunks st).

(** [ORDER BY similarity_score DESC]: rows of equal score keep their
    scan order. *)
Fixpoint insert_desc (r : Row.t) (sorted : list Row.t) : list Row.t :=
  match sorted with
  | [] => [r]
  | x :: rest =>
      if Qle_bool (Row.similarity_score x) (Row.similarity_score r)
      then r :: x :: rest
      else x :: insert_desc r rest
  end.

Fixpoint order_by_score_desc (rows : list Row.t) : list Row.t :=
  match rows with
  | [] => []
  | r :: rest => insert_desc r (order_by_score_desc rest)
  end.

(** [cursor.execute(full_query, params); cursor.fetchall()]. PostgreSQL
    rejects a negative LIMIT; [None] stands for any exception raised
    inside the [try]. *)
Definition execute_full_query (env : Env) (st : Store) (query_embedding : list Q)
    (limit : Z) : option (list Row.t) :=
  if execute_fails env query_embedding limit || (limit <? 0)%Z then None
  else Some (take (Z.to_nat limit)
                  (order_by_score_desc (joined_rows env st query_embedding))).

(** Truthiness of a dictionary. *)
Definition dict_truthy (d : gmap string JValue) : bool := bool_decide (d ≠ ∅).

(** [d.update(other)] *)
Definition dict_update (d other : gmap string JValue) : gmap string JValue := other ∪ d.

Definition row_to_result (row : Row.t) : SearchResult.t :=
  let metadata : gmap string JValue := ∅ in
  let metadata :=
    if dict_truthy (Row.chunk_metadata row)
    then dict_update metadata (Row.chunk_metadata row) else metadata in
  let metadata :=
    if dict_truthy (Row.doc_metadata row)
    then dict_update metadata (Row.doc_metadata row) else metadata in
  {| SearchResult.content := Row.content row;
     SearchResult.doc_id := Row.doc_id row;
     SearchResult.chunk_id := Row.chunk_id row;
     SearchResult.filename := Row.filename row;
     SearchResult.organization := Row.organization row;
     SearchResult.doc_type := Row.doc_type row;
     SearchResult.similarity_score := Row.similarity_score row;
     SearchResult.metadata := metadata |}.

Definition search_similar_chunks (env : Env) (query_embedding : list Q) (limit : Z)
    (similarity_threshold : Q)
    (doc_type_filter geographic_filter topic_filter : option string)
    : M (list SearchResult.t) :=
  get_db_connection env ;;
  let* st := get_store in
  match execute_full_query env st query_embedding limit with
  | Some results => ret (map row_to_result results)
  | None =>
      print ErrorSearchingChunks ;;
      print PrintedQuery ;;
      print (PrintedParams query_embedding limit) ;;
      ret []
  end.

(** [str(x)] inside an f-string for a value that may be [None]. *)
Definition str_of_optional (o : option string) : string :=
  match o with
  | Some s => s
  | None => "None"
  end.

(** [content_with_source] of one result. *)
Definition content_with_source (result : SearchResult.t) : string :=
  let source_info :=
    "[Source: " ++ SearchResult.filename result ++ " - "
      ++ str_of_optional (SearchResult.organization result) ++ "]" in
  source_info ++ Str.LF ++ SearchResult.content result ++ Str.LF.

(** [len(content_with_source) // 4] *)
Definition estimated_tokens (block : string) : Z := Str.len block / 4.

(** The loop of [prepare_context], with its [break]. *)
Fixpoint context_loop (search_results : list SearchResult.t) (max_tokens : Z)
    (context_parts : list string) (total_length : Z) : list string :=
  match search_results with
  | [] => context_parts
  | result :: rest =>
      let block := content_with_source result in
      if (total_length + estimated_tokens block >? max_tokens)%Z then context_parts
      else context_loop rest max_tokens (context_parts ++ [block])
                        (total_length + estimated_tokens block)
  end.

Definition separator : string := Str.LF ++ "---" ++ Str.LF.

Definition no_relevant_information : string := "No relevant information found.".

Definition prepare_context (search_results : list SearchResult.t) (max_tokens : Z) : string :=
  match search_results with
  | [] => no_relevant_information
  | _ => Str.join separator (context_loop search_results max_tokens [] 0)
  end.

(** The built-in template with both placeholders filled in. *)
Definition default_prompt (context question : string) : string :=
  "You are an expert marine scientist and ocean sustainability specialist. Answer the user's question based on the provided context from ocean research documents."
    ++ Str.LF ++ Str.LF
    ++ "Guidelines:" ++ Str.LF
    ++ "- Use only information from the provided context" ++ Str.LF
    ++ "- Be specific and cite sources when possible" ++ Str.LF
    ++ "- If the context doesn't contain relevant information, say so" ++ Str.LF
    ++ "- Focus on ocean sustainability, marine ecosystems, and environmental impacts" ++ Str.LF
    ++ "- Provide practical insights when available" ++ Str.LF ++ Str.LF
    ++ "Context:" ++ Str.LF
    ++ context ++ Str.LF ++ Str.LF
    ++ "Question: " ++ question ++ Str.LF ++ Str.LF
    ++ "Answer:".

Module Generated.
Record t : Type := {
  answer : string;
  model : string;
  usage : gmap string Z
}.
End Generated.

Definition generate_response (env : Env) (question context : string) : M Generated.t :=
  let* formatted_prompt :=
    match rag_prompt_md env with
    | None => ret (default_prompt context question)
    | Some prompt_template =>
        match str_format env prompt_template context question with
        | Some p => ret p
        | None => raise FormatError
        end
    end in
  match chat_create env formatted_prompt with
  | inr (text, usage) =>
      ret {| Generated.answer := text;
             Generated.model := chat_model env;
             Generated.usage := usage |}
  | inl e =>
      ret {| Generated.answer := "Error generating response: " ++ e;
             Generated.model := chat_model env;
             Generated.usage := ∅ |}
  end.

(** [round(x)] to the nearest integer, ties to even. *)
Definition round_half_even (x : Q) : Z :=
  let n := Qnum x in
  let d := Zpos (Qden x) in
  let fl := n / d in
  let r := n mod d in
  if (2 * r <? d)%Z then fl
  else if (d <? 2 * r)%Z then fl + 1
  else if Z.even fl then fl else fl + 1.

(** [round(x, 3)] *)
Definition round3 (x : Q) : Q := Qmake (round_half_even (x * 1000)%Q) 1000.

Module Source.
Record t : Type := {
  filename : string;
  organization : option string;
  doc_type : string;
  similarity_score : Q;
  geographic_focus : option JValue;
  topics : JValue
}.
End Source.

Module QueryMetadata.
Record t : Type := {
  question : string;
  results_count : Z;
  model_usage : gmap string Z;
  filters_applied : option string * option string * option string
}.
End QueryMetadata.

(** The dictionary returned by [query]; [metadata = None] is the empty
    dictionary of the short-circuit return. *)
Module QueryResult.
Record t : Type := {
  answer : string;
  sources : list Source.t;
  context : string;
  metadata : option QueryMetadata.t
}.
End QueryResult.

Definition source_of (result : SearchResult.t) : Source.t :=
  {| Source.filename := SearchResult.filename result;
     Source.organization := SearchResult.organization result;
     Source.doc_type := SearchResult.doc_type result;
     Source.similarity_score := round3 (SearchResult.similarity_score result);
     Source.geographic_focus := SearchResult.metadata result !! "geographic_focus";
     Source.topics := default (JList []) (SearchResult.metadata result !! "topics") |}.

Definition default_max_tokens : Z := 3000.

Definition query (env : Env) (question : string) (max_results : Z)
    (similarity_threshold : Q)
    (doc_type_filter geographic_filter topic_filter : option string)
    : M QueryResult.t :=
  let* query_embedding := create_query_embedding env question in
  match query_embedding with
  | [] =>
      ret {| QueryResult.answer := "Error creating query embedding";
             QueryResult.sources := [];
             QueryResult.context := "";
             QueryResult.metadata := None |}
  | _ =>
      let* search_results :=
        search_similar_chunks env query_embedding max_results similarity_threshold
                              doc_type_filter geographic_filter topic_filter in
      let context := prepare_context search_results default_max_tokens in
      let* response_data := generate_response env question context in
      let sources := map source_of search_results in
      ret {| QueryResult.answer := Generated.answer response_data;
             QueryResult.sources := sources;
             QueryResult.context := context;
             QueryResult.metadata :=
               Some {| QueryMetadata.question := question;
                       QueryMetadata.results_count := Z.of_nat (length search_results);
                       QueryMetadata.model_usage := Generated.usage response_data;
                       QueryMetadata.filters_applied :=
                         (doc_type_filter, geographic_filter, topic_filter) |} |}
  end.

(** ** Vocabulary of the statements *)

(** The formatted blocks of a result sequence, in rank order. *)
Definition blocks (search_results : list SearchResult.t) : list string :=
  map content_with_source search_results.

(** Cumulative approximate cost of a sequence of blocks. *)
Fixpoint cost (bs : list string) : Z :=
  match bs with
  | [] => 0
  | b :: bs' => estimated_tokens b + cost bs'
  end.

(** ** Concrete inputs used to exercise the statements *)

Module Demo.

Definition path : string := "corpus/baltic_seagrass_report.txt".

Definition file : FileInfo :=
  {| f_name := "baltic_seagrass_report.txt";
     f_suffix := ".txt";
     f_size := 61;
     f_pdf_pages := None;
     f_text := Some "Seagrass meadows store carbon. Transplanting shoots restores them." |}.

(** A splitter that cuts after the first sentence. *)
Definition two_sentences (text : string) : list string :=
  [ String.substring 0 30 text; String.substring 31 (String.length text - 31) text ].

(** An embedding endpoint that answers with one vector per input. *)
Definition one_vector_each (texts : list string) : option (list (list Q)) :=
  Some (map (fun t => [Qmake (Str.len t) 100]) texts).



Definition make_env (accepts : bool)
    (create : list string -> option (list (list Q))) : Env :=
  {| db_accepts := accepts;
     fs := fun p => if String.eqb p path then Some file else None;
     split_text := two_sentences;
     encode_length := fun t => Str.len t / 4;
     embeddings_create := create;
     cosine_distance := fun a b =>
       match a with x :: _ => x | [] => 1%Q end;
     execute_fails := fun _ _ => false;
     rag_prompt_md := None;
     str_format := fun _ _ _ => None;
     chat_model := "gpt-4o-mini";
     chat_create := fun _ => inr ("Seagrass is restored by transplanting shoots.", ∅) |}.

Definition env : Env := make_env true one_vector_each.

Definition start : State := {| db := empty_store; out := [] |}.

(** The state after [file] has been ingested once. *)
Definition ingested : State := (ingest_document env path None start).2.

Definition result_a : SearchResult.t :=
  {| SearchResult.content := "Seagrass meadows store carbon.";
     SearchResult.doc_id := 1;
     SearchResult.chunk_id := 1;
     SearchResult.filename := "baltic_seagrass_report.txt";
     SearchResult.organization := None;
     SearchResult.doc_type := "unknown";
     SearchResult.similarity_score := 0.7%Q;
     SearchResult.metadata := ∅ |}.

Definition result_b : SearchResult.t :=
  {| SearchResult.content := "Transplanting shoots restores them.";
     SearchResult.doc_id := 1;
     SearchResult.chunk_id := 2;
     SearchResult.filename := "baltic_seagrass_report.txt";
     SearchResult.organization := Some "HELCOM";
     SearchResult.doc_type := "unknown";
     SearchResult.similarity_score := 0.65%Q;
     SearchResult.metadata := ∅ |}.

Definition result_c : SearchResult.t :=
  {| SearchResult.content := "Eelgrass";
     SearchResult.doc_id := 2;
     SearchResult.chunk_id := 3;
     SearchResult.filename := "notes.md";
     SearchResult.organization := None;
     SearchResult.doc_type := "unknown";
     SearchResult.similarity_score := 0.5%Q;
     SearchResult.metadata := ∅ |}.

Definition three_results : list SearchResult.t := [result_a; result_b; result_c].

End Demo.






(** A prompt template read from disk formats without raising. *)
Definition prompt_formats (env : Env) : Prop :=
  forall prompt_template, rag_prompt_md env = Some prompt_template ->
  forall context question, str_format env prompt_template context question <> None.

(** The operation returns a value from every state: nothing is raised. *)
Definition never_raises {A} (m : M A) : Prop :=
  forall s, exists a s', m s = (Ok a, s').

(** The dictionary of the short-circuit return of [query]. *)
Definition embedding_error_result : QueryResult.t :=
  {| QueryResult.answer := "Error creating query embedding";
     QueryResult.sources := [];
     QueryResult.context := "";
     QueryResult.metadata := None |}.


(** A Document with this (filename, file_size) is in the store. *)
Definition has_document (st : Store) (filename : string) (file_size : Z) : Prop :=
  exists d, In d (documents st) /\ d_filename d = filename /\ d_file_size d = file_size.

(** The text [ingest_document] goes on with, when it does not return
    early on a read error: the stripped page texts of a PDF (the empty
    string when the reader raises), the file content otherwise. *)
Definition extracted_text (f : FileInfo) : option string :=
  if String.eqb (Str.lower (f_suffix f)) ".pdf" then
    match f_pdf_pages f with
    | Some pages => Some (Str.strip (concat_pages pages ""))
    | None => Some ""
    end
  else f_text f.

(** What [create_embeddings] returns for one batch. *)
Definition returned_embeddings (env : Env) (texts : list string) : list (list Q) :=
  match embeddings_create env texts with
  | Some data => data
  | None => []
  end.

(** The batches submitted for a chunk sequence. *)
Definition batches (chunks : list string) : list (list string) :=
  map (fun i => take batch_size (drop i chunks)) (range_step (length chunks) batch_size).

(** [all_embeddings] after the batch loop. *)
Definition all_embeddings_of (env : Env) (chunks : list string) : list (list Q) :=
  flat_map (returned_embeddings env) (batches chunks).

(** The lines the batch loop prints. *)
Definition batch_log (env : Env) (chunks : list string) (starts : list nat) : list Msg :=
  flat_map
    (fun i =>
       (match embeddings_create env (take batch_size (drop i chunks)) with
        | Some _ => []
        | None => [ErrorCreatingEmbeddings]
        end ++
        [CreatedEmbeddingsFor (Z.of_nat i + 1)
           (Z.min (Z.of_nat i + Z.of_nat batch_size) (Z.of_nat (length chunks)))])%list)
    starts.

(** The Document row [ingest_document] writes. *)
Definition new_document (st : Store) (filename : string) (organization : option string)
    (file_size : Z) : Document :=
  let metadata := extract_metadata_from_filename filename in
  {| d_id := next_document_id st;
     d_filename := filename;
     d_doc_type := get_doc_type metadata;
     d_organization := organization;
     d_file_size := file_size;
     d_metadata := metadata |}.

Definition add_document (st : Store) (d : Document) : Store :=
  {| documents := (documents st ++ [d])%list;
     chunks := chunks st;
     next_document_id := next_document_id st + 1;
     next_chunk_id := next_chunk_id st |}.

(** The Chunk rows [store_chunks] writes, applied to a store. *)
Definition add_chunks (env : Env) (st : Store) (doc_id : Z) (filename : string)
    (chunks : list string) (embeddings : list (list Q)) : Store :=
  fold_left (fun st row => insert_chunk env doc_id row st)
    (enumerate (zip3 chunks embeddings
                     (make_chunk_metadata (extract_metadata_from_filename filename)
                                          filename chunks)))
    st.


(** Referential integrity with SERIAL keys: every chunk belongs to a
    document id that has already been handed out. *)
Definition store_wf (st : Store) : Prop :=
  forall c, In c (chunks st) -> c_doc_id c < next_document_id st.


(** ** Further vocabulary: the store *)

(** The Chunk rows the loop of [store_chunks] builds from the enumerated
    triples, the first one taking the id [next_id]. *)
Fixpoint chunk_rows (env : Env) (doc_id next_id : Z)
    (rows : list (Z * (string * list Q * gmap string JValue))) : list Chunk :=
  match rows with
  | [] => []
  | (i, (chunk, embedding, metadata)) :: rest =>
      {| c_id := next_id; c_doc_id := doc_id; c_chunk_index := i;
         c_content := chunk; c_embedding := embedding;
         c_token_count := count_tokens env chunk; c_metadata := metadata |}
        :: chunk_rows env doc_id (next_id + 1) rest
  end.

(** The triples [store_chunks] receives from [ingest_document]. *)
Definition chunk_triples (filename : string) (chunks : list string)
    (embeddings : list (list Q)) : list (Z * (string * list Q * gmap string JValue)) :=
  enumerate (zip3 chunks embeddings
               (make_chunk_metadata (extract_metadata_from_filename filename)
                                    filename chunks)).

(** Keys of the two tables: primary keys are distinct and below the
    SERIAL counters, and every chunk refers to a stored document. *)
Definition store_consistent (st : Store) : Prop :=
  NoDup (map d_id (documents st)) /\
  (forall d, In d (documents st) -> d_id d < next_document_id st) /\
  NoDup (map c_id (chunks st)) /\
  (forall c, In c (chunks st) -> c_id c < next_chunk_id st) /\
  (forall c, In c (chunks st) -> exists d, In d (documents st) /\ d_id d = c_doc_id c).

(** No two Document rows share (filename, file_size). *)
Definition deduplicated (st : Store) : Prop :=
  NoDup (map (fun d => (d_filename d, d_file_size d)) (documents st)).

(** [st'] holds every row of [st], unchanged and in the same order,
    followed by new rows. *)
Definition extends (st st' : Store) : Prop :=
  (exists new_documents, documents st' = (documents st ++ new_documents)%list) /\
  (exists new_chunks, chunks st' = (chunks st ++ new_chunks)%list) /\
  next_document_id st <= next_document_id st' /\
  next_chunk_id st <= next_chunk_id st'.


(** ** [DocumentIngestor.ingest_directory] *)







(** A second file of the demonstration corpus, holding only white space. *)
Module Demo2.

Definition blank_path : string := "corpus/blank.md".

Definition blank_file : FileInfo :=
  {| f_name := "blank.md"; f_suffix := ".md"; f_size := 3;
     f_pdf_pages := None; f_text := Some "   " |}.

Definition env : Env :=
  {| db_accepts := true;
     fs := fun p =>
       if String.eqb p Demo.path then Some Demo.file
       else if String.eqb p blank_path then Some blank_file else None;
     split_text := Demo.two_sentences;
     encode_length := fun t => Str.len t / 4;
     embeddings_create := Demo.one_vector_each;
     cosine_distance := fun a b => match a with x :: _ => x | [] => 1%Q end;
     execute_fails := fun _ _ => false;
     rag_prompt_md := None;
     str_format := fun _ _ _ => None;
     chat_model := "gpt-4o-mini";
     chat_create := fun _ => inl "rate limit exceeded" |}.


End Demo2.

(** ** Further vocabulary: retrieval *)

(** The row the ranking query builds from a chunk and its document. *)
Definition row_of (env : Env) (query_embedding : list Q) (c : Chunk) (d : Document) : Row.t :=
  {| Row.content := c_content c;
     Row.chunk_id := c_id c;
     Row.doc_id := c_doc_id c;
     Row.chunk_metadata := c_metadata c;
     Row.filename := d_filename d;
     Row.organization := d_organization d;
     Row.doc_type := d_doc_type d;
     Row.doc_metadata := d_metadata d;
     Row.similarity_score :=
       (1 - cosine_distance env (c_embedding c) query_embedding)%Q |}.

(** ** [main] of [rag_retriever.py], after the arguments are parsed and
    the retriever is constructed *)

Module Main.






End Main.

(** The result [query] packages from the search results and the
    generated response. *)
Definition packaged (question : string) (dt geo tp : option string)
    (results : list SearchResult.t) (g : Generated.t) : QueryResult.t :=
  {| QueryResult.answer := Generated.answer g;
     QueryResult.sources := map source_of results;
     QueryResult.context := prepare_context results default_max_tokens;
     QueryResult.metadata :=
       Some {| QueryMetadata.question := question;
               QueryMetadata.results_count := Z.of_nat (length results);
               QueryMetadata.model_usage := Generated.usage g;
               QueryMetadata.filters_applied := (dt, geo, tp) |} |}.
(** * Properties *)

Local Open Scope Z_scope.

(** ** Strings *)

Lemma lower_char_idem c : Str.lower_char (Str.lower_char c) = Str.lower_char c.
Proof. by destruct c as [[] [] [] [] [] [] [] []]. Qed.

Lemma lower_idem s : Str.lower (Str.lower s) = Str.lower s.
Proof. induction s as [|c s IH]; simpl; [done|]. by rewrite lower_char_idem, IH. Qed.

Lemma append_cons c (t b : string) : String c t ++ b = String c (t ++ b).
Proof. reflexivity. Qed.

Lemma append_nil (b : string) : "" ++ b = b.
Proof. reflexivity. Qed.

Lemma prefix_app t s : String.prefix t s = true ↔ ∃ b, s = t ++ b.
Proof.
  revert s. induction t as [|c t IH]; intros s.
  - destruct s; simpl; split; eauto.
  - destruct s as [|c' s]; simpl; [split; [done|by intros [b Hb]]|].
    setoid_rewrite append_cons.
    destruct (Ascii.ascii_dec c c') as [->|Hne].
    + rewrite IH. split; intros [b Hb]; exists b; congruence.
    + split; [done|]. intros [b Hb]. congruence.
Qed.

(** [Str.contains] decides the substring relation. *)
Lemma contains_substring t s :
  Str.contains t s = true ↔ ∃ a b, s = a ++ t ++ b.
Proof.
  induction s as [|c s IH]; cbn [Str.contains].
  - rewrite prefix_app. split.
    + intros [b Hb]. by exists "", b.
    + intros (a & b & Hab). destruct a; [by exists b|done].
  - rewrite orb_true_iff, IH, prefix_app. split.
    + intros [[b Hb]|(a & b & Hab)].
      * by exists "", b.
      * exists (String c a), b. by rewrite append_cons, Hab.
    + intros (a & b & Hab). destruct a as [|c' a].
      * left. by exists b.
      * right. exists a, b. rewrite append_cons in Hab. congruence.
Qed.

(** ** MetadataExtractor *)

Lemma matches_single fl term v : Rules.matches fl ([term], v) = Str.contains term fl.
Proof. unfold Rules.matches; simpl. by rewrite orb_false_r. Qed.

(** What "the first matching rule in declared order" means for [List.find]. *)
Lemma first_match_spec rules fl v :
  Rules.first_match rules fl = Some v ↔
  ∃ before r after,
    rules = (before ++ r :: after)%list ∧ r.2 = v ∧ Rules.matches fl r = true ∧
    Forall (λ r', Rules.matches fl r' = false) before.
Proof.
  unfold Rules.first_match. induction rules as [|r rules IH]; simpl.
  - split; [done|]. intros (before & r & after & Heq & _). by destruct before.
  - destruct (Rules.matches fl r) eqn:Hr; simpl.
    + split.
      * intros [= <-]. by exists [], r, rules.
      * intros (before & r' & after & Heq & <- & Hm & Hbefore).
        destruct before as [|r0 before]; simplify_eq/=; [done|].
        inversion Hbefore; congruence.
    + rewrite IH. split.
      * intros (before & r' & after & -> & <- & Hm & Hbefore).
        exists (r :: before), r', after. by repeat split; [|constructor].
      * intros (before & r' & after & Heq & <- & Hm & Hbefore).
        destruct before as [|r0 before]; simplify_eq/=; [congruence|].
        inversion Hbefore; subst. by exists before, r', after.
Qed.

Lemma geographic_loop_first_match items fl (md : gmap string JValue) :
  geographic_loop items fl md =
  match Rules.first_match (map (λ kv, ([kv.1], kv.2)) items) fl with
  | Some region => <["geographic_focus" := JStr region]> md
  | None => md
  end.
Proof.
  induction items as [|[term region] items IH]; simpl; [done|].
  unfold Rules.first_match; simpl. rewrite matches_single.
  destruct (Str.contains term fl); [done|]. apply IH.
Qed.

Lemma topics_loop_all_matches items fl (md : gmap string JValue) l :
  md !! "topics" = Some (JList l) →
  topics_loop items fl md =
  <["topics" := JList (l ++ Rules.all_matches (map (λ kv, ([kv.1], kv.2)) items) fl)]> md.
Proof.
  revert md l. induction items as [|[term topic] items IH]; intros md l Hl.
  - unfold Rules.all_matches; simpl. rewrite app_nil_r. symmetry. by apply insert_id.
  - unfold Rules.all_matches; simpl. rewrite matches_single.
    destruct (Str.contains term fl); simpl.
    + unfold dict_append. rewrite Hl.
      rewrite (IH _ (l ++ [topic])%list) by apply lookup_insert_eq.
      rewrite insert_insert_eq. by rewrite <- app_assoc.
    + by apply IH.
Qed.

Lemma extract_metadata_refines filename :
  extract_metadata_from_filename filename = Rules.extract (Str.lower filename).
Proof.
  unfold extract_metadata_from_filename, Rules.extract.
  set (fl := Str.lower filename).
  rewrite (topics_loop_all_matches _ _ _ []) by apply lookup_insert_eq.
  rewrite insert_insert_eq, geographic_loop_first_match. simpl app.
  fold Rules.geographic_rules Rules.topic_rules.
  assert (Hdoc :
    (if any_term_in ["sustainability"; "esg"; "csr"] fl
     then <["doc_type" := JStr "sustainability_report"]> (∅ : gmap string JValue)
     else if any_term_in ["annual"; "quarterly"; "financial"] fl
     then <["doc_type" := JStr "company_report"]> ∅
     else if Str.contains "esrs" fl || Str.contains "european sustainability reporting" fl
     then <["doc_type" := JStr "esrs_document"]> ∅
     else <["doc_type" := JStr "unknown"]> ∅)
    = {[ "doc_type" := JStr (default "unknown" (Rules.first_match Rules.doc_type_rules fl)) ]}).
  { unfold Rules.first_match, Rules.doc_type_rules, Rules.matches, any_term_in. simpl.
    rewrite !orb_false_r.
    repeat (match goal with |- context [if ?b then _ else _] => destruct b; simpl end);
      by rewrite ?insert_empty. }
  rewrite Hdoc.
  destruct (Rules.first_match Rules.geographic_rules fl); [|done].
  by apply insert_insert_ne.
Qed.

Lemma filter_sublist {A} (f : A → bool) (l : list A) : List.filter f l `sublist_of` l.
Proof.
  induction l as [|x l IH]; simpl; [constructor|].
  destruct (f x); by constructor.
Qed.

Lemma all_matches_sublist rules fl : Rules.all_matches rules fl `sublist_of` map snd rules.
Proof.
  unfold Rules.all_matches. generalize (filter_sublist (Rules.matches fl) rules).
  generalize (List.filter (Rules.matches fl) rules). intros l Hl.
  induction Hl; simpl; by constructor.
Qed.

Lemma topic_tags_NoDup : NoDup (map snd Rules.topic_rules).
Proof. apply (bool_decide_unpack _). by vm_compute. Qed.

(** C6. Metadata extraction depends on the filename only through its
    lower-cased form and equals what the rule table prescribes:
    [doc_type] is the value of the first matching document-type rule or
    "unknown", [geographic_focus] is the value of the first matching
    geographic rule and is absent when none matches, [topics] lists the
    tags of exactly the matching topic rules, in declaration order and
    without duplicates; "baltic_seagrass_report.pdf" gives "unknown",
    "Baltic Sea" and the single topic "seagrass_restoration". *)
Theorem extract_metadata_from_filename_rules (filename : string) :
  let fl := Str.lower filename in
  let md := extract_metadata_from_filename filename in
  md = Rules.extract fl ∧
  (∀ other, Str.lower other = fl → extract_metadata_from_filename other = md) ∧
  extract_metadata_from_filename fl = md ∧
  md !! "doc_type" =
    Some (JStr (default "unknown" (Rules.first_match Rules.doc_type_rules fl))) ∧
  md !! "geographic_focus" = JStr <$> Rules.first_match Rules.geographic_rules fl ∧
  md !! "topics" = Some (JList (Rules.all_matches Rules.topic_rules fl)) ∧
  NoDup (Rules.all_matches Rules.topic_rules fl) ∧
  Rules.all_matches Rules.topic_rules fl `sublist_of` map snd ocean_topics ∧
  (∀ tag, tag ∈ Rules.all_matches Rules.topic_rules fl ↔
          ∃ term, (term, tag) ∈ ocean_topics ∧ ∃ a b, fl = a ++ term ++ b) ∧
  extract_metadata_from_filename "baltic_seagrass_report.pdf" =
    <["doc_type" := JStr "unknown"]>
      (<["geographic_focus" := JStr "Baltic Sea"]>
         {[ "topics" := JList ["seagrass_restoration"] ]}).
Proof.
  intros fl md.
  assert (Hmd : md = Rules.extract fl) by apply extract_metadata_refines.
  assert (Hsub : Rules.all_matches Rules.topic_rules fl `sublist_of` map snd Rules.topic_rules)
    by apply all_matches_sublist.
  assert (Htags : map snd Rules.topic_rules = map snd ocean_topics) by reflexivity.
  split; [done|]. split.
  { intros other Hother. subst md. by rewrite !extract_metadata_refines, Hother. }
  split.
  { subst md fl. by rewrite !extract_metadata_refines, lower_idem. }
  rewrite Hmd. unfold Rules.extract.
  split; [|split; [|split]].
  - destruct (Rules.first_match Rules.geographic_rules fl);
      rewrite ?lookup_insert_ne by done; apply lookup_singleton_eq.
  - destruct (Rules.first_match Rules.geographic_rules fl); simpl.
    + apply lookup_insert_eq.
    + rewrite lookup_insert_ne by done. by rewrite lookup_singleton_ne.
  - destruct (Rules.first_match Rules.geographic_rules fl);
      rewrite ?(lookup_insert_ne _ "geographic_focus") by done; apply lookup_insert_eq.
  - split; [|split; [|split]].
    + eapply sublist_NoDup; [apply topic_tags_NoDup|done].
    + by rewrite <- Htags.
    + intros tag. unfold Rules.all_matches, Rules.topic_rules.
      rewrite list_elem_of_In, in_map_iff. split.
      * intros ([terms tag'] & <- & Hin). apply filter_In in Hin as [Hin Hm].
        apply in_map_iff in Hin as ([term tag] & [= <- <-] & Hin).
        exists term. split; [by apply list_elem_of_In|].
        rewrite matches_single in Hm. by apply contains_substring.
      * intros (term & Hin & Hsubstr). exists ([term], tag). split; [done|].
        apply filter_In. split.
        -- apply in_map_iff. exists (term, tag). split; [done|by apply list_elem_of_In].
        -- rewrite matches_single. by apply contains_substring.
    + by vm_compute.
Qed.

Lemma extract_metadata_from_filename_rules_witness :
  extract_metadata_from_filename "Baltic_SEAGRASS_Report.PDF" =
    Rules.extract "baltic_seagrass_report.pdf" ∧
  extract_metadata_from_filename "baltic_seagrass_report.pdf" =
    extract_metadata_from_filename "Baltic_SEAGRASS_Report.PDF" ∧
  extract_metadata_from_filename "Baltic_SEAGRASS_Report.PDF" !! "geographic_focus" =
    Some (JStr "Baltic Sea").
Proof.
  pose proof (extract_metadata_from_filename_rules "Baltic_SEAGRASS_Report.PDF")
    as (Hext & Hother & _ & _ & Hgeo & _).
  split; [exact Hext|]. split; [apply Hother; reflexivity|]. exact Hgeo.
Defined.

(** ** ContextAssembler *)

Lemma estimated_tokens_nonneg b : 0 ≤ estimated_tokens b.
Proof. unfold estimated_tokens, Str.len. apply Z.div_pos; lia. Qed.

Lemma cost_nonneg bs : 0 ≤ cost bs.
Proof.
  induction bs as [|b bs IH]; simpl; [lia|].
  pose proof (estimated_tokens_nonneg b). lia.
Qed.

Lemma cost_app bs1 bs2 : cost (bs1 ++ bs2) = cost bs1 + cost bs2.
Proof. induction bs1 as [|b bs1 IH]; simpl; lia. Qed.

Lemma cost_take_mono bs (j k : nat) : (j ≤ k)%nat → cost (take j bs) ≤ cost (take k bs).
Proof.
  revert j k. induction bs as [|b bs IH]; intros j k Hjk.
  - by rewrite !take_nil.
  - destruct j as [|j]; simpl; [apply cost_nonneg|].
    destruct k as [|k]; [lia|]. simpl. specialize (IH j k). lia.
Qed.

(** The loop keeps what it has and appends a prefix of the remaining
    blocks: every non-empty included prefix stays within budget, and the
    block after the prefix, when there is one, goes over it. *)
Lemma context_loop_prefix rs B parts total :
  ∃ k : nat,
    (k ≤ length rs)%nat ∧
    context_loop rs B parts total = (parts ++ take k (blocks rs))%list ∧
    (∀ j : nat, (1 ≤ j ≤ k)%nat → total + cost (take j (blocks rs)) ≤ B) ∧
    ((k < length rs)%nat → total + cost (take (S k) (blocks rs)) > B).
Proof.
  revert parts total. induction rs as [|r rs IH]; intros parts total.
  - exists 0%nat. simpl. rewrite app_nil_r. repeat split; intros; lia.
  - simpl. destruct (Z.gtb_spec (total + estimated_tokens (content_with_source r)) B) as [Hgt|Hle].
    + exists 0%nat. simpl. rewrite app_nil_r. repeat split; intros; lia.
    + destruct (IH (parts ++ [content_with_source r])%list
                   (total + estimated_tokens (content_with_source r)))
        as (k & Hk & Heq & Hin & Hout).
      exists (S k). simpl. repeat split.
      * lia.
      * by rewrite Heq, <- app_assoc.
      * intros [|j] Hj; [lia|]. simpl. destruct j as [|j].
        -- rewrite take_0. simpl. lia.
        -- specialize (Hin (S j)). simpl in Hin. lia.
      * intros Hlt. specialize (Hout ltac:(lia)). simpl in Hout. lia.
Qed.



(** C10. When the first block alone costs more than the budget, the
    context of a non-empty result sequence is the empty string, which is
    not the sentinel of the empty sequence. *)
Theorem prepare_context_first_block_over_budget
    (result : SearchResult.t) (rest : list SearchResult.t) (B : Z) :
  estimated_tokens (content_with_source result) > B →
  prepare_context (result :: rest) B = "" ∧
  prepare_context (result :: rest) B ≠ no_relevant_information.
Proof.
  intros Hover. unfold prepare_context. simpl.
  destruct (Z.gtb_spec (0 + estimated_tokens (content_with_source result)) B); [|lia].
  by split.
Qed.

Lemma prepare_context_first_block_over_budget_witness :
  estimated_tokens (content_with_source Demo.result_a) > 2 ∧
  prepare_context Demo.three_results 2 = "" ∧
  prepare_context Demo.three_results 2 ≠ no_relevant_information.
Proof.
  split; [reflexivity|].
  apply (prepare_context_first_block_over_budget Demo.result_a _ 2). reflexivity.
Defined.

(** ** The monad *)

Lemma bind_ok {A B} (m : M A) (k : A → M B) s a s1 :
  m s = (Ok a, s1) → bind m k s = k a s1.
Proof. intros H. unfold bind. by rewrite H. Qed.

Lemma bind_raise {A B} (m : M A) (k : A → M B) s e s1 :
  m s = (Raise e, s1) → bind m k s = (Raise e, s1).
Proof. intros H. unfold bind. by rewrite H. Qed.

Lemma bind_inv_ok {A B} (m : M A) (k : A → M B) s b s2 :
  bind m k s = (Ok b, s2) → ∃ a s1, m s = (Ok a, s1) ∧ k a s1 = (Ok b, s2).
Proof.
  unfold bind. destruct (m s) as [[a|e] s1]; [|done]. intros H. by exists a, s1.
Qed.

Lemma get_db_connection_ok env s :
  db_accepts env = true → get_db_connection env s = (Ok tt, s).
Proof. intros H. unfold get_db_connection. by rewrite H. Qed.

Lemma get_db_connection_refused env s :
  db_accepts env = false → get_db_connection env s = (Raise OperationalError, s).
Proof. intros H. unfold get_db_connection. by rewrite H. Qed.

(** ** SimilaritySearch *)







(** What the search does once the connection is open. *)
Lemma search_similar_chunks_run env q limit thr dt geo tp s :
  db_accepts env = true →
  search_similar_chunks env q limit thr dt geo tp s =
  match execute_full_query env (db s) q limit with
  | Some rows => (Ok (map row_to_result rows), s)
  | None =>
      (Ok [], {| db := db s;
                 out := out s ++ [ErrorSearchingChunks; PrintedQuery; PrintedParams q limit] |})
  end.
Proof.
  intros Hdb. unfold search_similar_chunks.
  rewrite (bind_ok _ _ _ _ _ (get_db_connection_ok env s Hdb)).
  unfold bind, get_store, print, ret. destruct (execute_full_query _ _ _ _); [done|].
  simpl. by rewrite <- !app_assoc.
Qed.

Lemma search_similar_chunks_refused env q limit thr dt geo tp s :
  db_accepts env = false →
  search_similar_chunks env q limit thr dt geo tp s = (Raise OperationalError, s).
Proof.
  intros Hdb. unfold search_similar_chunks.
  by rewrite (bind_raise _ _ _ _ _ (get_db_connection_refused env s Hdb)).
Qed.




(** The three filter arguments never reach the ranking query. *)
Lemma search_similar_chunks_filters_unused env q limit thr dt geo tp :
  search_similar_chunks env q limit thr dt geo tp =
  search_similar_chunks env q limit thr None None None.
Proof. reflexivity. Qed.

(** C9. Two searches that differ only in the similarity threshold
    return the same results and leave the same state, so a result that
    scores below the threshold can be returned: on the demonstration
    store a search with threshold 0.9 returns a result scoring 0.7. *)
Theorem similarity_threshold_has_no_effect :
  (∀ env q limit (t1 t2 : Q) dt geo tp s,
     search_similar_chunks env q limit t1 dt geo tp s =
     search_similar_chunks env q limit t2 dt geo tp s) ∧
  (∃ results s' r,
     search_similar_chunks Demo.env [1%Q] 5 0.9%Q None None None Demo.ingested
       = (Ok results, s') ∧
     In r results ∧
     (SearchResult.similarity_score r < 0.9)%Q).
Proof.
  split; [reflexivity|].
  eexists _, _, _. split; [vm_compute; reflexivity|].
  split; [left; reflexivity|]. reflexivity.
Qed.


(** ** QueryOrchestrator *)

Lemma create_query_embedding_total env question s :
  ∃ e s', create_query_embedding env question s = (Ok e, s').
Proof.
  unfold create_query_embedding.
  destruct (embeddings_create env [question]) as [[|e rest]|]; by eauto.
Qed.


Lemma generate_response_total env question context :
  prompt_formats env → never_raises (generate_response env question context).
Proof.
  intros Hfmt s. unfold generate_response, bind.
  destruct (rag_prompt_md env) as [t|] eqn:Ht.
  - specialize (Hfmt t Ht context question).
    destruct (str_format env t context question) as [p|]; [|done].
    unfold ret. destruct (chat_create env p) as [e|[text usage]]; eauto.
  - unfold ret. destruct (chat_create env _) as [e|[text usage]]; eauto.
Qed.

Lemma search_similar_chunks_total env q limit thr dt geo tp :
  db_accepts env = true → never_raises (search_similar_chunks env q limit thr dt geo tp).
Proof.
  intros Hdb s. rewrite (search_similar_chunks_run _ _ _ _ _ _ _ _ Hdb).
  destruct (execute_full_query _ _ _ _); eauto.
Qed.




(** ** DocumentIngestor *)

Lemma document_exists_run env filename file_size s :
  db_accepts env = true →
  document_exists env filename file_size s =
    (Ok (match List.find (λ d, String.eqb (d_filename d) filename
                                && Z.eqb (d_file_size d) file_size) (documents (db s))
         with Some _ => true | None => false end), s).
Proof.
  intros Hdb. unfold document_exists.
  by rewrite (bind_ok _ _ _ _ _ (get_db_connection_ok env s Hdb)).
Qed.

Lemma find_document_iff st filename file_size :
  (match List.find (λ d, String.eqb (d_filename d) filename
                          && Z.eqb (d_file_size d) file_size) (documents st)
   with Some _ => true | None => false end) = true ↔
  has_document st filename file_size.
Proof.
  unfold has_document. destruct (List.find _ _) as [d|] eqn:Hfind; split.
  - intros _. apply find_some in Hfind as [Hin Hd].
    apply andb_true_iff in Hd as [Hn Hs].
    apply String.eqb_eq in Hn. apply Z.eqb_eq in Hs. by exists d.
  - done.
  - done.
  - intros (d & Hin & Hn & Hs). pose proof (find_none _ _ Hfind d Hin) as Hd. simpl in Hd.
    apply String.eqb_eq in Hn. apply Z.eqb_eq in Hs. rewrite Hn, Hs in Hd. done.
Qed.

Lemma document_exists_true env filename file_size s :
  db_accepts env = true → has_document (db s) filename file_size →
  document_exists env filename file_size s = (Ok true, s).
Proof.
  intros Hdb Hhas. rewrite document_exists_run by done.
  apply find_document_iff in Hhas. by rewrite Hhas.
Qed.

Lemma document_exists_false env filename file_size s :
  db_accepts env = true → ¬ has_document (db s) filename file_size →
  document_exists env filename file_size s = (Ok false, s).
Proof.
  intros Hdb Hhas. rewrite document_exists_run by done.
  destruct (match List.find _ _ with Some _ => true | None => false end) eqn:Hb; [|done].
  by apply find_document_iff in Hb.
Qed.

Lemma document_exists_refused env filename file_size s :
  db_accepts env = false →
  document_exists env filename file_size s = (Raise OperationalError, s).
Proof.
  intros Hdb. unfold document_exists.
  by rewrite (bind_raise _ _ _ _ _ (get_db_connection_refused env s Hdb)).
Qed.

Lemma store_document_run env filename organization file_size s :
  db_accepts env = true →
  store_document env filename (get_doc_type (extract_metadata_from_filename filename))
                 organization file_size (extract_metadata_from_filename filename) s =
    (Ok (next_document_id (db s)),
     {| db := add_document (db s) (new_document (db s) filename organization file_size);
        out := out s |}).
Proof.
  intros Hdb. unfold store_document.
  by rewrite (bind_ok _ _ _ _ _ (get_db_connection_ok env s Hdb)).
Qed.

Lemma embed_batches_run env starts chunks acc s :
  embed_batches env starts chunks acc s =
    (Ok (acc ++ flat_map (λ i, returned_embeddings env (take batch_size (drop i chunks)))
                         starts)%list,
     {| db := db s; out := out s ++ batch_log env chunks starts |}).
Proof.
  revert acc s. induction starts as [|i starts IH]; intros acc s.
  - simpl. rewrite !app_nil_r. by destruct s.
  - cbn [embed_batches]. unfold bind at 1. unfold create_embeddings, returned_embeddings.
    cbn [batch_log flat_map].
    destruct (embeddings_create env (take batch_size (drop i chunks))) as [data|].
    + unfold ret at 1. unfold bind at 1, print at 1. rewrite IH. cbn [db out].
      by rewrite <- !app_assoc.
    + unfold bind at 1, print at 1, ret at 1. unfold bind at 1, print at 1.
      rewrite IH. cbn [db out]. by rewrite <- !app_assoc.
Qed.

Lemma store_chunks_run env doc_id filename chunks embeddings s :
  db_accepts env = true →
  store_chunks env doc_id chunks embeddings
    (make_chunk_metadata (extract_metadata_from_filename filename) filename chunks) s =
    (Ok tt, {| db := add_chunks env (db s) doc_id filename chunks embeddings;
               out := out s |}).
Proof.
  intros Hdb. unfold store_chunks.
  by rewrite (bind_ok _ _ _ _ _ (get_db_connection_ok env s Hdb)).
Qed.

Lemma flat_map_map {A B C} (g : B → list C) (f : A → B) (l : list A) :
  flat_map g (map f l) = flat_map (λ a, g (f a)) l.
Proof. induction l as [|a l IH]; simpl; [done|]. by rewrite IH. Qed.

Lemma truthy_nonempty s : s ≠ "" → Str.truthy s = true.
Proof. by destruct s. Qed.

Lemma ingest_text_empty env filename file_size organization text s :
  Str.strip text = "" →
  ingest_text env filename file_size organization text s =
    (Ok false, {| db := db s; out := out s ++ [NoTextExtracted filename] |}).
Proof. intros Hempty. unfold ingest_text. by rewrite Hempty. Qed.

(** Where [ingest_text] ends once the document row can be written. *)
Lemma ingest_text_run env filename file_size organization text s :
  db_accepts env = true → Str.strip text ≠ "" →
  let chunks := split_text env text in
  let embeddings := all_embeddings_of env chunks in
  let st1 := add_document (db s) (new_document (db s) filename organization file_size) in
  let log := (out s ++ CreatedChunks (Z.of_nat (length chunks)) filename
                :: batch_log env chunks (range_step (length chunks) batch_size))%list in
  ingest_text env filename file_size organization text s =
    if Nat.eqb (length embeddings) (length chunks)
    then (Ok true,
          {| db := add_chunks env st1 (next_document_id (db s)) filename chunks embeddings;
             out := log ++ [SuccessfullyIngested filename (Z.of_nat (length chunks))] |})
    else (Ok false,
          {| db := st1;
             out := log ++ [EmbeddingCountMismatch (Z.of_nat (length chunks))
                                                   (Z.of_nat (length embeddings))] |}).
Proof.
  intros Hdb Htext chunks embeddings st1 log. unfold ingest_text.
  rewrite (truthy_nonempty _ Htext). cbn [negb].
  rewrite (bind_ok _ _ _ _ _ (store_document_run env filename organization file_size s Hdb)).
  unfold bind at 1, print at 1. rewrite (bind_ok _ _ _ _ _ (embed_batches_run _ _ _ _ _)).
  cbn [db out app]. rewrite <- flat_map_map.
  fold (batches (split_text env text)). fold (all_embeddings_of env (split_text env text)).
  fold chunks embeddings st1.
  assert (Hlog : ((out s ++ [CreatedChunks (Z.of_nat (length chunks)) filename]) ++
                  batch_log env chunks (range_step (length chunks) batch_size))%list = log).
  { subst log. by rewrite <- app_assoc. }
  rewrite Hlog. destruct (Nat.eqb (length embeddings) (length chunks)); cbn [negb].
  - rewrite (bind_ok _ _ _ _ _ (store_chunks_run env _ filename chunks embeddings _ Hdb)).
    done.
  - done.
Qed.

(** Past the existence check, [ingest_document] announces the file and
    hands its text to [ingest_text]. *)
Lemma ingest_document_new env file_path organization f text s :
  fs env file_path = Some f → db_accepts env = true →
  ¬ has_document (db s) (f_name f) (f_size f) →
  extracted_text f = Some text → Str.strip text ≠ "" →
  ingest_document env file_path organization s =
    ingest_text env (f_name f) (f_size f) organization text
                {| db := db s; out := out s ++ [IngestingDocument (f_name f)] |}.
Proof.
  intros Hfs Hdb Hnew Htext Hne. unfold ingest_document. rewrite Hfs.
  rewrite (bind_ok _ _ _ _ _ (document_exists_false env _ _ s Hdb Hnew)).
  unfold bind at 1, print at 1. unfold extracted_text in Htext.
  destruct (String.eqb (Str.lower (f_suffix f)) ".pdf").
  - unfold extract_text_from_pdf. destruct (f_pdf_pages f) as [pages|].
    + injection Htext as <-. done.
    + injection Htext as <-. done.
  - rewrite Htext. done.
Qed.

Lemma ingest_document_skip env file_path organization f s :
  fs env file_path = Some f → db_accepts env = true →
  has_document (db s) (f_name f) (f_size f) →
  ingest_document env file_path organization s =
    (Ok true, {| db := db s; out := out s ++ [AlreadyExistsSkipping (f_name f)] |}).
Proof.
  intros Hfs Hdb Hhas. unfold ingest_document. rewrite Hfs.
  by rewrite (bind_ok _ _ _ _ _ (document_exists_true env _ _ s Hdb Hhas)).
Qed.

(** Without usable text nothing is written and the ingestion fails. *)
Lemma ingest_document_no_text env file_path organization f s :
  fs env file_path = Some f → db_accepts env = true →
  ¬ has_document (db s) (f_name f) (f_size f) →
  (∀ text, extracted_text f = Some text → Str.strip text = "") →
  ∃ log, ingest_document env file_path organization s =
           (Ok false, {| db := db s; out := out s ++ log |}).
Proof.
  intros Hfs Hdb Hnew Htext. unfold ingest_document. rewrite Hfs.
  rewrite (bind_ok _ _ _ _ _ (document_exists_false env _ _ s Hdb Hnew)).
  unfold bind at 1, print at 1. unfold extracted_text in Htext.
  destruct (String.eqb (Str.lower (f_suffix f)) ".pdf").
  - unfold extract_text_from_pdf. destruct (f_pdf_pages f) as [pages|].
    + unfold bind at 1, ret at 1. rewrite ingest_text_empty by eauto. cbn [db out].
      eexists. by rewrite <- app_assoc.
    + unfold bind at 1. unfold bind at 1, print at 1, ret at 1.
      rewrite ingest_text_empty by done. cbn [db out].
      eexists. by rewrite <- !app_assoc.
  - destruct (f_text f) as [text|].
    + rewrite ingest_text_empty by eauto. cbn [db out]. eexists. by rewrite <- app_assoc.
    + unfold bind, print, ret. cbn [db out]. eexists. by rewrite <- app_assoc.
Qed.

Lemma documents_add_chunks env st doc_id filename chunks embeddings :
  documents (add_chunks env st doc_id filename chunks embeddings) = documents st.
Proof.
  unfold add_chunks. generalize (enumerate (zip3 chunks embeddings
    (make_chunk_metadata (extract_metadata_from_filename filename) filename chunks))).
  intros rows. revert st. induction rows as [|[i [[c e] m]] rows IH]; intros st; simpl; [done|].
  by rewrite IH.
Qed.

Lemma has_document_add_document st filename organization file_size :
  has_document (add_document st (new_document st filename organization file_size))
               filename file_size.
Proof.
  exists (new_document st filename organization file_size). split; [|done].
  simpl. apply in_or_app. right. by left.
Qed.

(** A successful ingestion leaves a matching Document in the store. *)
Lemma ingest_document_true_has_document env file_path organization f s0 s :
  fs env file_path = Some f →
  ingest_document env file_path organization s0 = (Ok true, s) →
  db_accepts env = true ∧ has_document (db s) (f_name f) (f_size f).
Proof.
  intros Hfs Hrun. destruct (db_accepts env) eqn:Hdb.
  2:{ unfold ingest_document in Hrun. rewrite Hfs in Hrun.
      by rewrite (bind_raise _ _ _ _ _ (document_exists_refused env _ _ s0 Hdb)) in Hrun. }
  split; [done|].
  destruct (match List.find (λ d, String.eqb (d_filename d) (f_name f)
                                   && Z.eqb (d_file_size d) (f_size f)) (documents (db s0))
            with Some _ => true | None => false end) eqn:Hfind.
  - apply find_document_iff in Hfind.
    rewrite (ingest_document_skip _ _ _ _ _ Hfs Hdb Hfind) in Hrun. by injection Hrun as <-.
  - assert (Hnew : ¬ has_document (db s0) (f_name f) (f_size f)).
    { intros Hhas. apply find_document_iff in Hhas. congruence. }
    destruct (extracted_text f) as [text|] eqn:Htext.
    + destruct (decide (Str.strip text = "")) as [Hempty|Hne].
      * destruct (ingest_document_no_text env file_path organization f s0 Hfs Hdb Hnew)
          as [log Hlog]; [|congruence]. intros t Ht. congruence.
      * rewrite (ingest_document_new _ _ _ _ _ _ Hfs Hdb Hnew Htext Hne) in Hrun.
        rewrite ingest_text_run in Hrun by done. cbn [db out] in Hrun.
        destruct (Nat.eqb _ _); [|done]. injection Hrun as <-. cbn [db].
        unfold has_document. rewrite documents_add_chunks.
        apply has_document_add_document.
    + destruct (ingest_document_no_text env file_path organization f s0 Hfs Hdb Hnew)
        as [log Hlog]; [|congruence]. intros t Ht. congruence.
Qed.

(** C3. When the store already holds a Document with the file's
    (filename, file_size), ingesting the file writes nothing, prints the
    skip message and returns success; in particular, ingesting again
    after a successful ingestion of the same file is such a no-op. *)
Theorem ingest_document_idempotent env file_path organization f s :
  fs env file_path = Some f →
  (db_accepts env = true → has_document (db s) (f_name f) (f_size f) →
   ingest_document env file_path organization s =
     (Ok true, {| db := db s; out := out s ++ [AlreadyExistsSkipping (f_name f)] |})) ∧
  (∀ s0, ingest_document env file_path organization s0 = (Ok true, s) →
         ingest_document env file_path organization s =
           (Ok true, {| db := db s; out := out s ++ [AlreadyExistsSkipping (f_name f)] |})).
Proof.
  intros Hfs. split.
  - intros Hdb Hhas. by apply ingest_document_skip.
  - intros s0 Hrun.
    destruct (ingest_document_true_has_document _ _ _ _ _ _ Hfs Hrun) as [Hdb Hhas].
    by apply ingest_document_skip.
Qed.

Lemma ingest_document_idempotent_witness :
  ingest_document Demo.env Demo.path None Demo.ingested =
    (Ok true, {| db := db Demo.ingested;
                 out := out Demo.ingested
                          ++ [AlreadyExistsSkipping "baltic_seagrass_report.txt"] |}) ∧
  ingest_document Demo.env Demo.path None
      (ingest_document Demo.env Demo.path None Demo.start).2 =
    (Ok true, {| db := db Demo.ingested;
                 out := out Demo.ingested
                          ++ [AlreadyExistsSkipping "baltic_seagrass_report.txt"] |}) ∧
  length (documents (db Demo.ingested)) = 1%nat.
Proof.
  pose proof (ingest_document_idempotent Demo.env Demo.path None Demo.file
                Demo.ingested eq_refl) as [Hskip Htwice].
  split; [|split; [|reflexivity]].
  - apply Hskip; [reflexivity|].
    eexists. split; [left; reflexivity|]. split; reflexivity.
  - apply (Htwice Demo.start). vm_compute. reflexivity.
Defined.

(** *** Chunk rows *)






(** The loop of [store_chunks] appends one row per triple, each with
    the document id, the enumeration index and the chunk text. *)
Lemma insert_chunks_appends env doc_id rows st :
  ∃ added,
    chunks (fold_left (λ st row, insert_chunk env doc_id row st) rows st)
      = (chunks st ++ added)%list ∧
    Forall (λ c, c_doc_id c = doc_id) added ∧
    map (λ c, (c_chunk_index c, c_content c)) added
      = map (λ row : Z * (string * list Q * gmap string JValue), (row.1, row.2.1.1)) rows.
Proof.
  revert st. induction rows as [|[i [[c e] m]] rows IH]; intros st.
  - exists []. simpl. by rewrite app_nil_r.
  - cbn [fold_left]. destruct (IH (insert_chunk env doc_id (i, (c, e, m)) st))
      as (added & Hchunks & Hdoc & Hmap).
    eexists (_ :: added). split; [|split].
    + rewrite Hchunks. simpl. by rewrite <- app_assoc.
    + by constructor.
    + simpl. by rewrite Hmap.
Qed.








(** *** The store invariant *)

Lemma store_wf_empty : store_wf empty_store.
Proof. intros c Hin. destruct Hin. Qed.

Lemma next_document_id_add_chunks env st doc_id filename chunks embeddings :
  next_document_id (add_chunks env st doc_id filename chunks embeddings)
  = next_document_id st.
Proof.
  unfold add_chunks. generalize (enumerate (zip3 chunks embeddings
    (make_chunk_metadata (extract_metadata_from_filename filename) filename chunks))).
  intros rows. revert st. induction rows as [|[i [[c e] m]] rows IH]; intros st; simpl; [done|].
  by rewrite IH.
Qed.

Lemma store_wf_add_document st d : store_wf st → store_wf (add_document st d).
Proof. intros Hwf c Hin. specialize (Hwf c Hin). simpl. lia. Qed.

Lemma store_wf_add_chunks env st doc_id filename chunks embeddings :
  store_wf st → doc_id < next_document_id st →
  store_wf (add_chunks env st doc_id filename chunks embeddings).
Proof.
  intros Hwf Hid c Hin. rewrite next_document_id_add_chunks.
  unfold add_chunks in Hin.
  destruct (insert_chunks_appends env doc_id
              (enumerate (zip3 chunks embeddings
                 (make_chunk_metadata (extract_metadata_from_filename filename)
                                      filename chunks))) st)
    as (added & Hchunks & Hdoc & _).
  rewrite Hchunks in Hin. apply in_app_or in Hin as [Hold|Hnew].
  - by apply Hwf.
  - rewrite Forall_forall in Hdoc. apply list_elem_of_In in Hnew.
    by rewrite (Hdoc c Hnew).
Qed.

(** Every outcome of [ingest_document], a raised exception included,
    leaves a store in which chunks refer to issued document ids. *)
Lemma ingest_document_preserves_store_wf env file_path organization s r s' :
  store_wf (db s) →
  ingest_document env file_path organization s = (r, s') →
  store_wf (db s').
Proof.
  intros Hwf Hrun. destruct (fs env file_path) as [f|] eqn:Hfs.
  2:{ unfold ingest_document in Hrun. rewrite Hfs in Hrun. by injection Hrun as <- <-. }
  destruct (db_accepts env) eqn:Hdb.
  2:{ unfold ingest_document in Hrun. rewrite Hfs in Hrun.
      rewrite (bind_raise _ _ _ _ _ (document_exists_refused env _ _ s Hdb)) in Hrun.
      by injection Hrun as <- <-. }
  destruct (match List.find (λ d, String.eqb (d_filename d) (f_name f)
                                   && Z.eqb (d_file_size d) (f_size f)) (documents (db s))
            with Some _ => true | None => false end) eqn:Hfind.
  - apply find_document_iff in Hfind.
    rewrite (ingest_document_skip _ _ _ _ _ Hfs Hdb Hfind) in Hrun. by injection Hrun as <- <-.
  - assert (Hnew : ¬ has_document (db s) (f_name f) (f_size f)).
    { intros Hhas. apply find_document_iff in Hhas. congruence. }
    assert (Hnotext : (∀ t, extracted_text f = Some t → Str.strip t = "") → store_wf (db s')).
    { intros Ht.
      destruct (ingest_document_no_text env file_path organization f s Hfs Hdb Hnew Ht)
        as [log Hlog].
      rewrite Hlog in Hrun. by injection Hrun as <- <-. }
    destruct (extracted_text f) as [text|] eqn:Htext; [|by apply Hnotext].
    destruct (decide (Str.strip text = "")) as [Hempty|Hne].
    { apply Hnotext. intros t [= <-]. done. }
    rewrite (ingest_document_new _ _ _ _ _ _ Hfs Hdb Hnew Htext Hne) in Hrun.
    rewrite ingest_text_run in Hrun by done. cbn [db out] in Hrun.
    destruct (Nat.eqb _ _); injection Hrun as <- <-; cbn [db].
    + apply store_wf_add_chunks; [by apply store_wf_add_document|]. simpl. lia.
    + by apply store_wf_add_document.
Qed.

(** *** Batches *)

Lemma range_step_elem stop step i :
  (0 < step)%nat →
  In i (range_step stop step) ↔ ∃ k : nat, i = (k * step)%nat ∧ (i < stop)%nat.
Proof.
  intros Hstep. unfold range_step. rewrite in_map_iff. split.
  - intros (k & <- & Hk). apply in_seq in Hk. exists k. split; [done|].
    assert (k < (stop + step - 1) / step)%nat as Hlt by lia.
    pose proof (Nat.div_mod_eq (stop + step - 1) step).
    pose proof (Nat.mod_upper_bound (stop + step - 1) step). nia.
  - intros (k & -> & Hk). exists k. split; [done|]. apply in_seq.
    split; [lia|]. simpl.
    apply Nat.div_le_lower_bound; [lia|]. nia.
Qed.

Lemma concat_batches_upto (m : nat) (l : list string) :
  (length l ≤ m * batch_size)%nat →
  concat (map (λ i, take batch_size (drop i l))
              (map (λ k, (k * batch_size)%nat) (seq 0 m))) = l.
Proof.
  revert l. induction m as [|m IH]; intros l Hlen.
  - destruct l; [done|]. simpl in Hlen. lia.
  - rewrite <- cons_seq, <- seq_shift, !map_cons, !map_map. cbn [concat].
    rewrite Nat.mul_0_l, drop_0.
    transitivity (take batch_size l ++ drop batch_size l)%list; [|apply take_drop].
    f_equal. etransitivity; [|apply (IH (drop batch_size l))].
    + f_equal. rewrite map_map. apply map_ext. intros k.
      rewrite drop_drop; do 2 f_equal; lia.
    + rewrite length_drop. lia.
Qed.

(** The batches submitted to the embedding endpoint are the chunk
    sequence cut into consecutive pieces: every chunk is submitted
    once, in order. *)
Lemma concat_batches chunks : concat (batches chunks) = chunks.
Proof.
  unfold batches, range_step. apply concat_batches_upto.
  unfold batch_size.
  pose proof (Nat.div_mod_eq (length chunks + 100 - 1) 100).
  pose proof (Nat.mod_upper_bound (length chunks + 100 - 1) 100). lia.
Qed.

(** * Further properties *)

(** ** What [ingest_document] does to the store *)

Lemma fold_insert_chunk env doc_id rows st :
  fold_left (λ st row, insert_chunk env doc_id row st) rows st =
  {| documents := documents st;
     chunks := chunks st ++ chunk_rows env doc_id (next_chunk_id st) rows;
     next_document_id := next_document_id st;
     next_chunk_id := next_chunk_id st + Z.of_nat (length rows) |}.
Proof.
  revert st. induction rows as [|[i [[c e] m]] rows IH]; intros st.
  - simpl. rewrite app_nil_r, Z.add_0_r. by destruct st.
  - cbn [fold_left]. rewrite IH. cbn [insert_chunk documents chunks next_document_id
      next_chunk_id chunk_rows length]. f_equal.
    + by rewrite <- app_assoc.
    + lia.
Qed.

Lemma add_chunks_rows env st doc_id filename texts embeddings :
  add_chunks env st doc_id filename texts embeddings =
  {| documents := documents st;
     chunks := chunks st ++ chunk_rows env doc_id (next_chunk_id st)
                              (chunk_triples filename texts embeddings);
     next_document_id := next_document_id st;
     next_chunk_id := next_chunk_id st
                      + Z.of_nat (length (chunk_triples filename texts embeddings)) |}.
Proof. unfold add_chunks. by rewrite fold_insert_chunk. Qed.

(** The four ways an ingestion can end, as far as the store goes:
    untouched; or, for a file not yet stored, the Document row alone
    (embedding count mismatch) or the Document row and its chunks. *)
Lemma ingest_document_store env file_path organization s r s' :
  ingest_document env file_path organization s = (r, s') →
  db s' = db s ∨
  ∃ f text,
    fs env file_path = Some f ∧ db_accepts env = true ∧
    ¬ has_document (db s) (f_name f) (f_size f) ∧
    extracted_text f = Some text ∧ Str.strip text ≠ "" ∧
    ((r = Ok false ∧
      length (all_embeddings_of env (split_text env text)) ≠ length (split_text env text) ∧
      db s' = add_document (db s)
                (new_document (db s) (f_name f) organization (f_size f))) ∨
     (r = Ok true ∧
      length (all_embeddings_of env (split_text env text)) = length (split_text env text) ∧
      db s' = add_chunks env
                (add_document (db s)
                   (new_document (db s) (f_name f) organization (f_size f)))
                (next_document_id (db s)) (f_name f) (split_text env text)
                (all_embeddings_of env (split_text env text)))).
Proof.
  intros Hrun. destruct (fs env file_path) as [f|] eqn:Hfs.
  2:{ left. unfold ingest_document in Hrun. rewrite Hfs in Hrun. by injection Hrun as <- <-. }
  destruct (db_accepts env) eqn:Hdb.
  2:{ left. unfold ingest_document in Hrun. rewrite Hfs in Hrun.
      rewrite (bind_raise _ _ _ _ _ (document_exists_refused env _ _ s Hdb)) in Hrun.
      by injection Hrun as <- <-. }
  destruct (match List.find (λ d, String.eqb (d_filename d) (f_name f)
                                   && Z.eqb (d_file_size d) (f_size f)) (documents (db s))
            with Some _ => true | None => false end) eqn:Hfind.
  { left. apply find_document_iff in Hfind.
    rewrite (ingest_document_skip _ _ _ _ _ Hfs Hdb Hfind) in Hrun. by injection Hrun as <- <-. }
  assert (Hnew : ¬ has_document (db s) (f_name f) (f_size f)).
  { intros Hhas. apply find_document_iff in Hhas. congruence. }
  assert (Hnotext : (∀ t, extracted_text f = Some t → Str.strip t = "") → db s' = db s).
  { intros Ht.
    destruct (ingest_document_no_text env file_path organization f s Hfs Hdb Hnew Ht)
      as [log Hlog].
    rewrite Hlog in Hrun. by injection Hrun as <- <-. }
  destruct (extracted_text f) as [text|] eqn:Htext; [|left; by apply Hnotext].
  destruct (decide (Str.strip text = "")) as [Hempty|Hne].
  { left. apply Hnotext. intros t [= <-]. done. }
  right. exists f, text. repeat (split; [done|]).
  rewrite (ingest_document_new _ _ _ _ _ _ Hfs Hdb Hnew Htext Hne) in Hrun.
  rewrite ingest_text_run in Hrun by done. cbn [db out] in Hrun.
  destruct (Nat.eqb_spec (length (all_embeddings_of env (split_text env text)))
                         (length (split_text env text))) as [Heq|Hneq];
    injection Hrun as <- <-; cbn [db]; [right|left]; done.
Qed.

Lemma chunk_rows_ids env doc_id next_id rows :
  map c_id (chunk_rows env doc_id next_id rows) = seqZ next_id (Z.of_nat (length rows)).
Proof.
  revert next_id. induction rows as [|[i [[c e] m]] rows IH]; intros next_id; [done|].
  cbn [chunk_rows map length c_id]. rewrite IH, (seqZ_cons next_id) by lia.
  f_equal. f_equal; lia.
Qed.

Lemma chunk_rows_doc_id env doc_id next_id rows c :
  In c (chunk_rows env doc_id next_id rows) → c_doc_id c = doc_id.
Proof.
  revert next_id. induction rows as [|[i [[t e] m]] rows IH]; intros next_id; [done|].
  intros [<-|Hin]; [done|]. by eapply IH.
Qed.

Lemma chunk_rows_id_range env doc_id next_id rows c :
  In c (chunk_rows env doc_id next_id rows) →
  next_id ≤ c_id c < next_id + Z.of_nat (length rows).
Proof.
  intros Hin. assert (Hid : In (c_id c) (map c_id (chunk_rows env doc_id next_id rows)))
    by by apply in_map.
  rewrite chunk_rows_ids, <- list_elem_of_In, elem_of_seqZ in Hid. lia.
Qed.

Lemma extends_refl st : extends st st.
Proof. repeat split; try (exists []; by rewrite app_nil_r); lia. Qed.

Lemma extends_trans st1 st2 st3 : extends st1 st2 → extends st2 st3 → extends st1 st3.
Proof.
  intros ([d1 Hd1] & [c1 Hc1] & ? & ?) ([d2 Hd2] & [c2 Hc2] & ? & ?).
  repeat split; [| |lia|lia].
  - exists (d1 ++ d2)%list. by rewrite Hd2, Hd1, <- app_assoc.
  - exists (c1 ++ c2)%list. by rewrite Hc2, Hc1, <- app_assoc.
Qed.

Lemma extends_add_document st d : extends st (add_document st d).
Proof. repeat split; simpl; [by eexists|exists []; by rewrite app_nil_r|lia|lia]. Qed.

Lemma extends_add_chunks env st doc_id filename texts embeddings :
  extends st (add_chunks env st doc_id filename texts embeddings).
Proof.
  rewrite add_chunks_rows.
  repeat split; simpl; [exists []; by rewrite app_nil_r|by eexists|lia|lia].
Qed.

Lemma ingest_document_extends_store env file_path organization s r s' :
  ingest_document env file_path organization s = (r, s') → extends (db s) (db s').
Proof.
  intros Hrun. apply ingest_document_store in Hrun
    as [->|(f & text & _ & _ & _ & _ & _ & [(_ & _ & ->)|(_ & _ & ->)])].
  - apply extends_refl.
  - apply extends_add_document.
  - eapply extends_trans; [apply extends_add_document|apply extends_add_chunks].
Qed.

Lemma store_consistent_empty : store_consistent empty_store.
Proof. repeat split; simpl; try constructor; by intros ? []. Qed.

Lemma store_consistent_add_document st d :
  store_consistent st → d_id d = next_document_id st →
  store_consistent (add_document st d).
Proof.
  intros (Hdn & Hdlt & Hcn & Hclt & Hfk) Hid. repeat split; simpl.
  - rewrite map_app. apply NoDup_app. split; [done|]. split; [|apply NoDup_singleton].
    intros x Hx [Heq|[]]%list_elem_of_In. apply list_elem_of_In, in_map_iff in Hx
      as (d' & Hd' & Hin). specialize (Hdlt d' Hin). lia.
  - intros d' [Hin|[<-|[]]]%in_app_or; [specialize (Hdlt d' Hin)|]; lia.
  - done.
  - done.
  - intros c Hin. destruct (Hfk c Hin) as (d' & Hd' & Heq).
    exists d'. split; [|done]. apply in_or_app. by left.
Qed.

Lemma store_consistent_add_chunks env st doc_id filename texts embeddings :
  store_consistent st → (∃ d, In d (documents st) ∧ d_id d = doc_id) →
  store_consistent (add_chunks env st doc_id filename texts embeddings).
Proof.
  intros (Hdn & Hdlt & Hcn & Hclt & Hfk) Hdoc. rewrite add_chunks_rows.
  repeat split; simpl; [done|done| | |].
  - rewrite map_app. apply NoDup_app. split; [done|]. split.
    + intros x Hx Hnew. apply list_elem_of_In, in_map_iff in Hx as (c & Hc & Hin).
      specialize (Hclt c Hin).
      rewrite chunk_rows_ids, elem_of_seqZ in Hnew. lia.
    + rewrite chunk_rows_ids. apply NoDup_seqZ.
  - intros c [Hin|Hin]%in_app_or.
    + specialize (Hclt c Hin). lia.
    + apply chunk_rows_id_range in Hin. lia.
  - intros c [Hin|Hin]%in_app_or; [by apply Hfk|].
    apply chunk_rows_doc_id in Hin. by rewrite Hin.
Qed.

(** X1. Whatever an ingestion returns or raises, it keeps the keys of the
    store sound: document ids and chunk ids stay distinct and below
    their counters, and every chunk still refers to a stored document. *)
Theorem ingest_document_keeps_keys env file_path organization s r s' :
  store_consistent (db s) →
  ingest_document env file_path organization s = (r, s') →
  store_consistent (db s').
Proof.
  intros Hc Hrun. apply ingest_document_store in Hrun
    as [->|(f & text & _ & _ & _ & _ & _ & [(_ & _ & ->)|(_ & _ & ->)])]; [done| |].
  - by apply store_consistent_add_document.
  - apply store_consistent_add_chunks; [by apply store_consistent_add_document|].
    exists (new_document (db s) (f_name f) organization (f_size f)).
    split; [|reflexivity]. simpl. apply in_or_app. right. by left.
Qed.

Lemma ingest_document_keeps_keys_witness : store_consistent (db Demo.ingested).
Proof.
  apply (ingest_document_keeps_keys Demo.env Demo.path None Demo.start (Ok true)
           Demo.ingested).
  - apply store_consistent_empty.
  - vm_compute. reflexivity.
Defined.

(** X2. An ingestion never creates a second Document row for a
    (filename, file_size) pair: a store without such duplicates stays
    without them, whatever the outcome. *)
Theorem ingest_document_keeps_deduplicated env file_path organization s r s' :
  deduplicated (db s) →
  ingest_document env file_path organization s = (r, s') →
  deduplicated (db s').
Proof.
  intros Hd Hrun.
  assert (Hadd : ∀ f, ¬ has_document (db s) (f_name f) (f_size f) →
            deduplicated (add_document (db s)
                            (new_document (db s) (f_name f) organization (f_size f)))).
  { intros f Hnew. unfold deduplicated. simpl. rewrite map_app. apply NoDup_app.
    split; [done|]. split; [|apply NoDup_singleton].
    intros x Hx [Heq|[]]%list_elem_of_In. apply Hnew. subst x.
    apply list_elem_of_In, in_map_iff in Hx as (d & [= Hn Hs] & Hin). by exists d. }
  apply ingest_document_store in Hrun
    as [->|(f & text & _ & _ & Hnew & _ & _ & [(_ & _ & ->)|(_ & _ & ->)])]; [done| |].
  - by apply Hadd.
  - unfold deduplicated. rewrite documents_add_chunks. by apply Hadd.
Qed.

Lemma ingest_document_keeps_deduplicated_witness : deduplicated (db Demo.ingested).
Proof.
  apply (ingest_document_keeps_deduplicated Demo.env Demo.path None Demo.start (Ok true)
           Demo.ingested).
  - constructor.
  - vm_compute. reflexivity.
Defined.

(** X3. An ingestion only appends: every Document and Chunk row that was
    in the store is still there afterwards, unchanged and at the same
    position, and the two id counters never go back; this holds for
    every outcome, a raised exception included. *)
Theorem ingest_document_append_only env file_path organization s r s' :
  ingest_document env file_path organization s = (r, s') →
  (∃ new_documents, documents (db s') = (documents (db s) ++ new_documents)%list ∧
                    (length new_documents ≤ 1)%nat) ∧
  (∃ new_chunks, chunks (db s') = (chunks (db s) ++ new_chunks)%list) ∧
  next_document_id (db s) ≤ next_document_id (db s') ∧
  next_chunk_id (db s) ≤ next_chunk_id (db s').
Proof.
  intros Hrun. pose proof (ingest_document_extends_store _ _ _ _ _ _ Hrun)
    as (_ & Hchunks & Hd & Hc).
  split; [|done].
  apply ingest_document_store in Hrun
    as [->|(f & text & _ & _ & _ & _ & _ & [(_ & _ & ->)|(_ & _ & ->)])].
  - exists []. rewrite app_nil_r. split; [done|simpl; lia].
  - eexists. split; [reflexivity|simpl; lia].
  - rewrite documents_add_chunks. eexists. split; [reflexivity|simpl; lia].
Qed.

Lemma ingest_document_append_only_witness :
  (∃ new_documents, documents (db Demo.ingested) = ([] ++ new_documents)%list ∧
                    (length new_documents ≤ 1)%nat) ∧
  (∃ new_chunks, chunks (db Demo.ingested) = ([] ++ new_chunks)%list) ∧
  1 ≤ next_document_id (db Demo.ingested) ∧
  1 ≤ next_chunk_id (db Demo.ingested).
Proof.
  apply (ingest_document_append_only Demo.env Demo.path None Demo.start (Ok true)
           Demo.ingested).
  vm_compute. reflexivity.
Defined.





(** *** The rows of a successful ingestion *)












(** ** Batches *)

Lemma batches_length (texts : list string) :
  length (batches texts) = ((length texts + 99) / 100)%nat.
Proof.
  unfold batches, range_step, batch_size. rewrite !length_map, length_seq.
  f_equal. lia.
Qed.

Lemma batches_sizes (texts : list string) (i : nat) (b : list string) :
  batches texts !! i = Some b →
  (1 ≤ length b ≤ 100)%nat ∧ (S i < length (batches texts) → length b = 100)%nat.
Proof.
  intros Hb. rewrite batches_length.
  unfold batches, range_step, batch_size in Hb.
  change (map ?f ?l) with (f <$> l) in Hb.
  rewrite !list_lookup_fmap in Hb.
  destruct (seq 0 ((length texts + 100 - 1) / 100) !! i) as [k|] eqn:Hk; [|done].
  apply lookup_seq in Hk as [-> Hi]. simpl in Hb. injection Hb as <-.
  rewrite length_take, length_drop.
  replace (length texts + 100 - 1)%nat with (length texts + 99)%nat in Hi by lia.
  pose proof (Nat.div_mod_eq (length texts + 99) 100).
  pose proof (Nat.mod_upper_bound (length texts + 99) 100). lia.
Qed.

(** X8. The batch loop cuts the chunk sequence into consecutive pieces
    of exactly 100 chunks, the last one holding the remaining 1 to 100:
    every chunk is submitted once, in order, in ceil(N/100) requests,
    and no request is empty or larger than 100. *)
Theorem batches_partition (texts : list string) :
  concat (batches texts) = texts ∧
  length (batches texts) = ((length texts + 99) / 100)%nat ∧
  ∀ (i : nat) (b : list string),
    batches texts !! i = Some b →
    (1 ≤ length b ≤ 100)%nat ∧
    (S i < length (batches texts) → length b = 100)%nat.
Proof.
  split; [apply concat_batches|]. split; [apply batches_length|].
  intros i b Hb. by apply batches_sizes.
Qed.

(** ** Storing and finding documents *)




(** ** Directory ingestion *)










(** ** The shape of extracted metadata *)

Lemma append_assoc (a b c : string) : (a ++ b) ++ c = a ++ (b ++ c).
Proof. induction a as [|x a IH]; [done|]. by rewrite !append_cons, IH. Qed.

Lemma contains_trans u t s :
  Str.contains u t = true → Str.contains t s = true → Str.contains u s = true.
Proof.
  rewrite !contains_substring. intros (a1 & b1 & ->) (a2 & b2 & ->).
  exists (a2 ++ a1), (b1 ++ b2). by rewrite !append_assoc.
Qed.

Lemma first_match_doc_type fl :
  Rules.first_match Rules.doc_type_rules fl =
  if any_term_in ["sustainability"; "esg"; "csr"] fl then Some "sustainability_report"
  else if any_term_in ["annual"; "quarterly"; "financial"] fl then Some "company_report"
  else if any_term_in ["esrs"; "european sustainability reporting"] fl
       then Some "esrs_document"
  else None.
Proof.
  unfold Rules.first_match, Rules.doc_type_rules, Rules.matches, any_term_in. simpl.
  repeat (match goal with |- context [if ?b then _ else _] => destruct b; simpl end); done.
Qed.

Lemma get_doc_type_extract filename :
  get_doc_type (extract_metadata_from_filename filename) =
  default "unknown" (Rules.first_match Rules.doc_type_rules (Str.lower filename)).
Proof.
  rewrite extract_metadata_refines. unfold get_doc_type, Rules.extract.
  destruct (Rules.first_match Rules.geographic_rules _);
    rewrite ?(lookup_insert_ne _ "geographic_focus") by done;
    rewrite lookup_insert_ne by done; by rewrite lookup_singleton_eq.
Qed.

Lemma extract_lookups fl :
  Rules.extract fl !! "doc_type" =
    Some (JStr (default "unknown" (Rules.first_match Rules.doc_type_rules fl))) ∧
  Rules.extract fl !! "geographic_focus" =
    JStr <$> Rules.first_match Rules.geographic_rules fl ∧
  Rules.extract fl !! "topics" = Some (JList (Rules.all_matches Rules.topic_rules fl)).
Proof.
  unfold Rules.extract. split; [|split].
  - destruct (Rules.first_match Rules.geographic_rules fl);
      rewrite ?lookup_insert_ne by done; apply lookup_singleton_eq.
  - destruct (Rules.first_match Rules.geographic_rules fl); simpl.
    + apply lookup_insert_eq.
    + rewrite lookup_insert_ne by done. by rewrite lookup_singleton_ne.
  - destruct (Rules.first_match Rules.geographic_rules fl);
      rewrite ?(lookup_insert_ne _ "geographic_focus") by done; apply lookup_insert_eq.
Qed.

(** X12. The extracted metadata always has the keys [doc_type] and
    [topics] and at most [geographic_focus] besides: the document type
    is one of the four known values (so the later lookup with default
    never falls back), the focus, when present, is one of the six
    regions, and the topics are among the seven tags. *)
Theorem extract_metadata_shape (filename : string) :
  let md := extract_metadata_from_filename filename in
  (∃ t, md !! "doc_type" = Some (JStr t) ∧ get_doc_type md = t ∧
        In t ["sustainability_report"; "company_report"; "esrs_document"; "unknown"]) ∧
  (∃ tags, md !! "topics" = Some (JList tags) ∧
           ∀ tag, In tag tags → In tag (map snd ocean_topics)) ∧
  (md !! "geographic_focus" = None ∨
   ∃ region, md !! "geographic_focus" = Some (JStr region) ∧
             In region (map snd geographic_terms)) ∧
  (∀ key, key ≠ "doc_type" → key ≠ "topics" → key ≠ "geographic_focus" →
          md !! key = None).
Proof.
  intros md.
  destruct (extract_lookups (Str.lower filename)) as (Hdoc & Hgeo & Htopics).
  rewrite <- extract_metadata_refines in Hdoc, Hgeo, Htopics.
  pose proof (all_matches_sublist Rules.topic_rules (Str.lower filename)) as Hsub.
  change (map snd Rules.topic_rules) with (map snd ocean_topics) in Hsub.
  fold md in Hdoc, Hgeo, Htopics. split; [|split; [|split]].
  - eexists. split; [exact Hdoc|]. split.
    + subst md. apply get_doc_type_extract.
    + rewrite first_match_doc_type.
      repeat (match goal with |- context [if ?b then _ else _] => destruct b end);
        simpl; tauto.
  - eexists. split; [exact Htopics|]. intros tag Htag.
    apply list_elem_of_In. eapply sublist_subseteq; [exact Hsub|]. by apply list_elem_of_In.
  - rewrite Hgeo. destruct (Rules.first_match Rules.geographic_rules _) as [region|] eqn:Hfm;
      [right|by left].
    exists region. split; [done|]. apply first_match_spec in Hfm
      as (before & r & after & Heq & <- & _).
    assert (Hin : In r Rules.geographic_rules).
    { rewrite Heq. apply in_or_app. right. by left. }
    unfold Rules.geographic_rules in Hin. apply in_map_iff in Hin as ([term reg] & <- & Hin).
    apply in_map_iff. by exists (term, reg).
  - intros key H1 H2 H3. subst md. rewrite extract_metadata_refines. unfold Rules.extract.
    destruct (Rules.first_match Rules.geographic_rules _);
      rewrite ?(lookup_insert_ne _ "geographic_focus") by done;
      rewrite lookup_insert_ne by done; by rewrite lookup_singleton_ne.
Qed.

(** X13. Rule priority for the document type: a filename naming a
    sustainability keyword is a sustainability report whatever else it
    names; since "european sustainability reporting" contains
    "sustainability", that phrase always yields "sustainability_report",
    and "esrs_document" is obtained exactly from filenames that contain
    "esrs" and none of the six keywords of the two rules before. *)
Theorem doc_type_rule_priority (filename : string) :
  let fl := Str.lower filename in
  let doc_type := get_doc_type (extract_metadata_from_filename filename) in
  (any_term_in ["sustainability"; "esg"; "csr"] fl = true →
   doc_type = "sustainability_report") ∧
  (Str.contains "european sustainability reporting" fl = true →
   doc_type = "sustainability_report") ∧
  (doc_type = "esrs_document" ↔
   Str.contains "esrs" fl = true ∧
   any_term_in ["sustainability"; "esg"; "csr"] fl = false ∧
   any_term_in ["annual"; "quarterly"; "financial"] fl = false).
Proof.
  intros fl doc_type. subst doc_type. rewrite get_doc_type_extract. fold fl.
  rewrite first_match_doc_type.
  assert (Hphrase : Str.contains "european sustainability reporting" fl = true →
                    any_term_in ["sustainability"; "esg"; "csr"] fl = true).
  { intros Hc. unfold any_term_in. simpl.
    rewrite (contains_trans "sustainability" "european sustainability reporting" fl);
      [done|reflexivity|done]. }
  split; [by intros ->|]. split; [intros Hc; by rewrite (Hphrase Hc)|].
  destruct (any_term_in ["sustainability"; "esg"; "csr"] fl) eqn:H1.
  { simpl. split; [done|]. by intros (_ & ? & _). }
  destruct (any_term_in ["annual"; "quarterly"; "financial"] fl) eqn:H2.
  { simpl. split; [done|]. by intros (_ & _ & ?). }
  unfold any_term_in at 1. simpl.
  destruct (Str.contains "european sustainability reporting" fl) eqn:H3.
  { specialize (Hphrase eq_refl). congruence. }
  rewrite !orb_false_r. destruct (Str.contains "esrs" fl); simpl; split; try done.
  by intros (? & _).
Qed.

Lemma doc_type_rule_priority_witness :
  get_doc_type (extract_metadata_from_filename "ESRS_Sustainability_Annual_2024.pdf")
    = "sustainability_report" ∧
  get_doc_type (extract_metadata_from_filename "esrs_e1_climate.pdf") = "esrs_document".
Proof.
  split.
  - apply (proj1 (doc_type_rule_priority "ESRS_Sustainability_Annual_2024.pdf")).
    reflexivity.
  - apply (proj2 (proj2 (doc_type_rule_priority "esrs_e1_climate.pdf"))).
    repeat split.
Defined.

(** ** More on context assembly *)

Lemma append_nil_r (a : string) : a ++ "" = a.
Proof. induction a as [|x a IH]; [done|]. by rewrite append_cons, IH. Qed.


Lemma join_app_prefix sep (l more : list string) :
  ∃ tail, Str.join sep (l ++ more) = Str.join sep l ++ tail.
Proof.
  unfold Str.join. induction l as [|x l IH]; [by eexists|].
  destruct l as [|y l].
  - destruct more as [|z more]; simpl.
    + exists "". by rewrite append_nil_r.
    + by eexists.
  - destruct IH as [tail IH]. exists tail.
    change (String.concat sep ((x :: y :: l) ++ more))
      with (x ++ sep ++ String.concat sep ((y :: l) ++ more)).
    change (String.concat sep (x :: y :: l)) with (x ++ sep ++ String.concat sep (y :: l)).
    by rewrite IH, !append_assoc.
Qed.

Lemma context_loop_budget_mono rs B B' parts total :
  B ≤ B' →
  ∃ more, context_loop rs B' parts total = (context_loop rs B parts total ++ more)%list.
Proof.
  intros HB. revert parts total. induction rs as [|r rs IH]; intros parts total.
  - exists []. simpl. by rewrite app_nil_r.
  - simpl. destruct (Z.gtb_spec (total + estimated_tokens (content_with_source r)) B).
    + destruct (Z.gtb_spec (total + estimated_tokens (content_with_source r)) B').
      * exists []. by rewrite app_nil_r.
      * destruct (context_loop_prefix rs B' (parts ++ [content_with_source r])%list
                    (total + estimated_tokens (content_with_source r)))
          as (k & _ & -> & _). rewrite <- app_assoc. by eexists.
    + destruct (Z.gtb_spec (total + estimated_tokens (content_with_source r)) B'); [lia|].
      apply IH.
Qed.

(** X14. Raising the token budget only extends the context: the context
    assembled under a budget is a prefix, as a string, of the context
    assembled from the same results under any larger budget. *)
Theorem prepare_context_budget_monotone (search_results : list SearchResult.t) (B B' : Z) :
  B ≤ B' →
  ∃ tail, prepare_context search_results B' = prepare_context search_results B ++ tail.
Proof.
  intros HB. unfold prepare_context. destruct search_results as [|r rs].
  - exists "". by rewrite append_nil_r.
  - destruct (context_loop_budget_mono (r :: rs) B B' [] 0 HB) as [more ->].
    apply join_app_prefix.
Qed.

Lemma prepare_context_budget_monotone_witness :
  ∃ tail, prepare_context Demo.three_results 40 =
          prepare_context Demo.three_results 18 ++ tail.
Proof. apply (prepare_context_budget_monotone Demo.three_results 18 40). lia. Defined.

(** X15. When the budget covers the cumulative cost of all blocks,
    nothing is dropped: the context is every block, in rank order,
    joined by the delimiter. *)
Theorem prepare_context_all_fit (search_results : list SearchResult.t) (B : Z) :
  search_results ≠ [] → cost (blocks search_results) ≤ B →
  prepare_context search_results B = Str.join separator (blocks search_results).
Proof.
  intros Hne Hcost.
  destruct (context_loop_prefix search_results B [] 0) as (k & Hk & Heq & _ & Hout).
  unfold prepare_context. destruct search_results as [|r rs]; [done|].
  rewrite Heq. simpl app. f_equal.
  destruct (decide (k < length (r :: rs))%nat) as [Hlt|Hge].
  - specialize (Hout Hlt).
    pose proof (cost_take_mono (blocks (r :: rs)) (S k) (length (blocks (r :: rs)))) as Hm.
    rewrite firstn_all in Hm. unfold blocks in Hm at 1. rewrite length_map in Hm. lia.
  - apply take_ge. unfold blocks. rewrite length_map. lia.
Qed.

Lemma prepare_context_all_fit_witness :
  prepare_context Demo.three_results 3000 = Str.join separator (blocks Demo.three_results).
Proof.
  apply (prepare_context_all_fit Demo.three_results 3000); [discriminate|].
  vm_compute. discriminate.
Defined.





(** ** More on the similarity search *)

Lemma joined_rows_row_of env st q :
  joined_rows env st q =
  flat_map (λ c, map (row_of env q c)
                     (List.filter (λ d, Z.eqb (c_doc_id c) (d_id d)) (documents st)))
           (chunks st).
Proof. reflexivity. Qed.

Lemma filter_doc_none (docs : list Document) (id : Z) :
  (∀ d', In d' docs → d_id d' = id → False) →
  List.filter (λ d', Z.eqb id (d_id d')) docs = [].
Proof.
  induction docs as [|x docs IH]; intros Hnone; simpl; [done|].
  destruct (Z.eqb_spec id (d_id x)) as [Heq|_].
  - exfalso. apply (Hnone x); [by left|done].
  - apply IH. intros d' Hd'. apply Hnone. by right.
Qed.

Lemma filter_unique_id (docs : list Document) (d : Document) :
  NoDup (map d_id docs) → In d docs →
  List.filter (λ d', Z.eqb (d_id d) (d_id d')) docs = [d].
Proof.
  induction docs as [|x docs IH]; intros Hnd Hin; [done|].
  apply NoDup_cons in Hnd as [Hx Hnd]. simpl.
  destruct Hin as [->|Hin].
  - rewrite Z.eqb_refl. f_equal. apply filter_doc_none.
    intros d' Hd' Heq. apply Hx. rewrite <- Heq. apply list_elem_of_In. by apply in_map.
  - destruct (Z.eqb_spec (d_id d) (d_id x)) as [Heq|_]; [|by apply IH].
    exfalso. apply Hx. rewrite <- Heq. apply list_elem_of_In. by apply in_map.
Qed.

Lemma joined_rows_In env st q r :
  In r (joined_rows env st q) ↔
  ∃ c d, In c (chunks st) ∧ In d (documents st) ∧ d_id d = c_doc_id c ∧
         r = row_of env q c d.
Proof.
  rewrite joined_rows_row_of, in_flat_map. split.
  - intros (c & Hc & Hr). apply in_map_iff in Hr as (d & <- & Hd).
    apply filter_In in Hd as [Hd Heq]. apply Z.eqb_eq in Heq. by exists c, d.
  - intros (c & d & Hc & Hd & Heq & ->). exists c. split; [done|].
    apply in_map. apply filter_In. split; [done|]. by apply Z.eqb_eq.
Qed.

Lemma joined_chunk_ids env q (docs : list Document) (cs : list Chunk) :
  NoDup (map d_id docs) →
  (∀ c, In c cs → ∃ d, In d docs ∧ d_id d = c_doc_id c) →
  map Row.chunk_id
      (flat_map (λ c, map (row_of env q c)
                          (List.filter (λ d, Z.eqb (c_doc_id c) (d_id d)) docs)) cs)
  = map c_id cs.
Proof.
  intros Hnd. induction cs as [|c cs IH]; intros Hfk; [done|].
  cbn [flat_map]. rewrite map_app, IH by (intros c' Hc'; apply Hfk; by right).
  destruct (Hfk c (or_introl eq_refl)) as (d & Hd & Heq).
  rewrite <- Heq, (filter_unique_id docs d Hnd Hd). done.
Qed.

(** X17. The candidates of the ranking query are the chunks joined with
    their documents: a row is a candidate exactly when it is built from
    a stored chunk and the stored document its [doc_id] names, and in a
    store with sound keys every chunk gives exactly one candidate, in
    scan order. *)
Theorem joined_rows_chunks_with_documents env st q :
  (∀ r, In r (joined_rows env st q) ↔
        ∃ c d, In c (chunks st) ∧ In d (documents st) ∧ d_id d = c_doc_id c ∧
               r = row_of env q c d) ∧
  (store_consistent st →
   map Row.chunk_id (joined_rows env st q) = map c_id (chunks st)).
Proof.
  split; [intros r; apply joined_rows_In|].
  intros (Hnd & _ & _ & _ & Hfk). rewrite joined_rows_row_of.
  by apply joined_chunk_ids.
Qed.

Lemma joined_rows_chunks_with_documents_witness :
  map Row.chunk_id (joined_rows Demo.env (db Demo.ingested) [1%Q]) = [1; 2].
Proof.
  apply (proj2 (joined_rows_chunks_with_documents Demo.env (db Demo.ingested) [1%Q])).
  apply (store_consistent_add_chunks Demo.env
           (add_document empty_store
              (new_document empty_store "baltic_seagrass_report.txt" None 61))
           1 "baltic_seagrass_report.txt"
           (Demo.two_sentences
              "Seagrass meadows store carbon. Transplanting shoots restores them.")).
  - apply store_consistent_add_document; [apply store_consistent_empty|reflexivity].
  - eexists. split; [left; reflexivity|reflexivity].
Defined.







(** ** More on the query pipeline *)

(** X19. The metadata of a result is the chunk's metadata overlaid with
    the document's: a key the document defines reads as in the
    document, any other key as in the chunk. *)
Theorem row_to_result_metadata (row : Row.t) (key : string) :
  SearchResult.metadata (row_to_result row) !! key =
  match Row.doc_metadata row !! key with
  | Some v => Some v
  | None => Row.chunk_metadata row !! key
  end.
Proof.
  unfold row_to_result, dict_truthy, dict_update. cbn [SearchResult.metadata].
  destruct (decide (Row.chunk_metadata row = ∅)) as [Hc|Hc];
    destruct (decide (Row.doc_metadata row = ∅)) as [Hd|Hd];
    rewrite ?(bool_decide_eq_true_2 _ Hc), ?(bool_decide_eq_true_2 _ Hd),
            ?bool_decide_eq_false_2 by (by intros ?);
    rewrite ?Hc, ?Hd, ?lookup_union, ?lookup_empty;
    by repeat (match goal with |- context [?m !! key] => destruct (m !! key) end).
Qed.

Lemma create_query_embedding_state env question s e s1 :
  create_query_embedding env question s = (e, s1) →
  db s1 = db s ∧ ∃ log, out s1 = (out s ++ log)%list.
Proof.
  unfold create_query_embedding.
  destruct (embeddings_create env [question]) as [[|v rest]|]; intros [= <- <-];
    (split; [done|]); simpl; try by eexists. exists []. by rewrite app_nil_r.
Qed.

Lemma search_similar_chunks_state env q limit thr dt geo tp s r s1 :
  search_similar_chunks env q limit thr dt geo tp s = (r, s1) →
  db s1 = db s ∧ ∃ log, out s1 = (out s ++ log)%list.
Proof.
  destruct (db_accepts env) eqn:Hdb.
  - rewrite (search_similar_chunks_run _ _ _ _ _ _ _ _ Hdb).
    destruct (execute_full_query _ _ _ _); intros [= <- <-]; (split; [done|]); simpl.
    + exists []. by rewrite app_nil_r.
    + by eexists.
  - rewrite (search_similar_chunks_refused _ _ _ _ _ _ _ _ Hdb). intros [= <- <-].
    split; [done|]. exists []. by rewrite app_nil_r.
Qed.

Lemma generate_response_state env question context s r s1 :
  generate_response env question context s = (r, s1) → s1 = s.
Proof.
  unfold generate_response, bind, ret, raise.
  destruct (rag_prompt_md env) as [t|].
  - destruct (str_format env t context question) as [p|]; [|by intros [= <- <-]].
    destruct (chat_create env p) as [e|[text usage]]; by intros [= <- <-].
  - destruct (chat_create env _) as [e|[text usage]]; by intros [= <- <-].
Qed.

(** [query], stage by stage. *)
Lemma query_run env question max_results thr dt geo tp s :
  ∃ e s1,
    create_query_embedding env question s = (Ok e, s1) ∧
    query env question max_results thr dt geo tp s =
    match e with
    | [] => (Ok embedding_error_result, s1)
    | _ =>
        match search_similar_chunks env e max_results thr dt geo tp s1 with
        | (Raise x, s2) => (Raise x, s2)
        | (Ok results, s2) =>
            match generate_response env question
                    (prepare_context results default_max_tokens) s2 with
            | (Raise x, s3) => (Raise x, s3)
            | (Ok g, s3) => (Ok (packaged question dt geo tp results g), s3)
            end
        end
    end.
Proof.
  destruct (create_query_embedding_total env question s) as (e & s1 & He).
  exists e, s1. split; [done|]. unfold query. rewrite (bind_ok _ _ _ _ _ He).
  destruct e as [|x e]; [done|]. unfold bind.
  destruct (search_similar_chunks _ _ _ _ _ _ _ s1) as [[results|x'] s2]; [|done].
  by destruct (generate_response _ _ _ s2) as [[g|x'] s3].
Qed.

(** X20. A query only reads the store: whatever it returns or raises, the
    two tables are as before, and the printed output has only grown. *)
Theorem query_is_read_only env question max_results thr dt geo tp s r s' :
  query env question max_results thr dt geo tp s = (r, s') →
  db s' = db s ∧ ∃ log, out s' = (out s ++ log)%list.
Proof.
  destruct (query_run env question max_results thr dt geo tp s) as (e & s1 & He & ->).
  apply create_query_embedding_state in He as [Hdb1 [log1 Hout1]].
  destruct e as [|x e].
  { intros [= <- <-]. split; [done|by exists log1]. }
  destruct (search_similar_chunks _ _ _ _ _ _ _ s1) as [[results|x'] s2] eqn:Hs;
    apply search_similar_chunks_state in Hs as [Hdb2 [log2 Hout2]].
  - destruct (generate_response _ _ _ s2) as [[g|x'] s3] eqn:Hg;
      apply generate_response_state in Hg as ->; intros [= <- <-];
      (split; [congruence|]); exists (log1 ++ log2)%list;
      by rewrite Hout2, Hout1, <- app_assoc.
  - intros [= <- <-]. split; [congruence|]. exists (log1 ++ log2)%list.
    by rewrite Hout2, Hout1, <- app_assoc.
Qed.

Lemma query_is_read_only_witness :
  db (query Demo.env "What are seagrass restoration methods?" 5 0%Q None None None
            Demo.ingested).2 = db Demo.ingested ∧
  ∃ log, out (query Demo.env "What are seagrass restoration methods?" 5 0%Q None None None
                    Demo.ingested).2 = (out Demo.ingested ++ log)%list.
Proof.
  apply (query_is_read_only Demo.env "What are seagrass restoration methods?" 5 0%Q
           None None None Demo.ingested
           (query Demo.env "What are seagrass restoration methods?" 5 0%Q None None None
                  Demo.ingested).1).
  by destruct (query _ _ _ _ _ _ _ _).
Defined.




(** X22. A failure of the chat call does not lose the retrieval: once
    the question is embedded and the store is reachable, with the
    built-in prompt template, a chat call that raises [err] still gives
    a result whose sources, context and result count are those of the
    search, whose usage is empty, and whose answer is the error text
    after "Error generating response: ". *)
Theorem query_generation_failure env question max_results thr dt geo tp e rest err s :
  embeddings_create env [question] = Some (e :: rest) → e ≠ [] →
  db_accepts env = true → rag_prompt_md env = None →
  ∃ results s2,
    search_similar_chunks env e max_results thr dt geo tp s = (Ok results, s2) ∧
    (chat_create env (default_prompt (prepare_context results default_max_tokens) question)
       = inl err →
     query env question max_results thr dt geo tp s =
       (Ok (packaged question dt geo tp results
              {| Generated.answer := "Error generating response: " ++ err;
                 Generated.model := chat_model env;
                 Generated.usage := ∅ |}), s2)).
Proof.
  intros Hemb Hne Hdb Htemplate.
  destruct (search_similar_chunks_total env e max_results thr dt geo tp Hdb s)
    as (results & s2 & Hs).
  exists results, s2. split; [done|]. intros Hchat.
  destruct (query_run env question max_results thr dt geo tp s) as (e' & s1 & He & ->).
  unfold create_query_embedding in He. rewrite Hemb in He. injection He as <- <-.
  destruct e as [|x e]; [done|]. rewrite Hs.
  unfold generate_response. rewrite Htemplate. unfold bind at 1, ret at 1.
  by rewrite Hchat.
Qed.

Lemma query_generation_failure_witness :
  ∃ results s2,
    search_similar_chunks Demo2.env [0.38%Q] 5 0%Q None None None Demo.ingested
      = (Ok results, s2) ∧
    query Demo2.env "What are seagrass restoration methods?" 5 0%Q None None None
          Demo.ingested =
      (Ok (packaged "What are seagrass restoration methods?" None None None results
             {| Generated.answer := "Error generating response: rate limit exceeded";
                Generated.model := "gpt-4o-mini";
                Generated.usage := ∅ |}), s2).
Proof.
  destruct (query_generation_failure Demo2.env "What are seagrass restoration methods?"
              5 0%Q None None None [0.38%Q] [] "rate limit exceeded" Demo.ingested)
    as (results & s2 & Hs & Hq).
  - reflexivity.
  - discriminate.
  - reflexivity.
  - reflexivity.
  - exists results, s2. split; [exact Hs|]. apply Hq. reflexivity.
Defined.

(** ** The command-line entry point *)




(** X24. A ranking query that fails (the store raises while executing
    it, or the limit is negative) does not fail the query: the search
    prints its three diagnostic lines and returns no results, the chat
    model is asked with the sentinel context "No relevant information
    found.", and the result has no sources and a result count of 0. *)
Theorem query_search_failure_uses_sentinel env question max_results thr dt geo tp
    e rest s :
  embeddings_create env [question] = Some (e :: rest) → e ≠ [] →
  db_accepts env = true → rag_prompt_md env = None →
  execute_fails env e max_results = true ∨ max_results < 0 →
  ∃ g,
    generate_response env question "No relevant information found."
      {| db := db s;
         out := out s ++ [ErrorSearchingChunks; PrintedQuery; PrintedParams e max_results] |}
      = (Ok g, {| db := db s;
                  out := out s ++ [ErrorSearchingChunks; PrintedQuery;
                                   PrintedParams e max_results] |}) ∧
    query env question max_results thr dt geo tp s =
      (Ok {| QueryResult.answer := Generated.answer g;
             QueryResult.sources := [];
             QueryResult.context := "No relevant information found.";
             QueryResult.metadata :=
               Some {| QueryMetadata.question := question;
                       QueryMetadata.results_count := 0;
                       QueryMetadata.model_usage := Generated.usage g;
                       QueryMetadata.filters_applied := (dt, geo, tp) |} |},
       {| db := db s;
          out := out s ++ [ErrorSearchingChunks; PrintedQuery;
                           PrintedParams e max_results] |}).
Proof.
  intros Hemb Hne Hdb Htemplate Hfail.
  set (s2 := {| db := db s; out := _ |}).
  assert (Hformats : prompt_formats env).
  { intros t Ht. congruence. }
  destruct (generate_response_total env question "No relevant information found."
              Hformats s2) as (g & s3 & Hg).
  pose proof (generate_response_state _ _ _ _ _ _ Hg) as ->.
  exists g. split; [done|].
  destruct (query_run env question max_results thr dt geo tp s) as (e' & s1 & He & ->).
  unfold create_query_embedding in He. rewrite Hemb in He. injection He as <- <-.
  destruct e as [|x e]; [done|].
  rewrite (search_similar_chunks_run _ _ _ _ _ _ _ _ Hdb).
  assert (Hq : execute_full_query env (db s) (x :: e) max_results = None).
  { unfold execute_full_query. destruct Hfail as [->|Hneg]; [done|].
    destruct (Z.ltb_spec max_results 0); [|lia]. by rewrite orb_true_r. }
  rewrite Hq. fold s2.
  change (prepare_context [] default_max_tokens) with "No relevant information found.".
  by rewrite Hg.
Qed.

Lemma query_search_failure_uses_sentinel_witness :
  ∃ g,
    generate_response Demo.env "What are seagrass restoration methods?"
      "No relevant information found."
      {| db := db Demo.ingested;
         out := out Demo.ingested
                  ++ [ErrorSearchingChunks; PrintedQuery; PrintedParams [0.38%Q] (-1)] |}
      = (Ok g, {| db := db Demo.ingested;
                  out := out Demo.ingested
                           ++ [ErrorSearchingChunks; PrintedQuery;
                               PrintedParams [0.38%Q] (-1)] |}) ∧
    query Demo.env "What are seagrass restoration methods?" (-1) 0%Q None None None
          Demo.ingested =
      (Ok {| QueryResult.answer := Generated.answer g;
             QueryResult.sources := [];
             QueryResult.context := "No relevant information found.";
             QueryResult.metadata :=
               Some {| QueryMetadata.question := "What are seagrass restoration methods?";
                       QueryMetadata.results_count := 0;
                       QueryMetadata.model_usage := Generated.usage g;
                       QueryMetadata.filters_applied := (None, None, None) |} |},
       {| db := db Demo.ingested;
          out := out Demo.ingested
                   ++ [ErrorSearchingChunks; PrintedQuery; PrintedParams [0.38%Q] (-1)] |}).
Proof.
  apply (query_search_failure_uses_sentinel Demo.env
           "What are seagrass restoration methods?" (-1) 0%Q None None None
           [0.38%Q] [] Demo.ingested).
  - reflexivity.
  - discriminate.
  - reflexivity.
  - reflexivity.
  - right. lia.
Defined.

(** ** Embedding failures during ingestion *)





(** ** From ingestion to retrieval *)



(** ** Source attribution *)

Lemma round_half_even_bounds (x : Q) :
  2 * Z.abs (round_half_even x * Zpos (Qden x) - Qnum x) ≤ Zpos (Qden x).
Proof.
  unfold round_half_even.
  pose proof (Z.div_mod (Qnum x) (Zpos (Qden x)) ltac:(lia)) as Hdm.
  pose proof (Z.mod_pos_bound (Qnum x) (Zpos (Qden x)) ltac:(lia)) as Hm.
  destruct (Z.ltb_spec (2 * (Qnum x mod Zpos (Qden x))) (Zpos (Qden x)));
    [|destruct (Z.ltb_spec (Zpos (Qden x)) (2 * (Qnum x mod Zpos (Qden x))));
      [|destruct (Z.even _)]]; nia.
Qed.

Lemma round3_close (x : Q) :
  (round3 x - (1 # 2000) <= x)%Q ∧ (x <= round3 x + (1 # 2000))%Q.
Proof.
  pose proof (round_half_even_bounds (x * 1000)%Q) as H.
  unfold round3. destruct x as [n d].
  set (k := round_half_even _) in *. clearbody k.
  cbv [Qle Qmult Qplus Qminus Qopp Qnum Qden] in *.
  rewrite ?Pos2Z.inj_mul in *. lia.
Qed.

(** X27. A source entry names its result faithfully: filename,
    organization and document type are copied, the geographic focus and
    the topics are read from the merged metadata (no focus when the key
    is missing, an empty topic list by default), and the score shown is
    a whole number of thousandths within 0.0005 of the similarity score. *)
Theorem source_of_attribution (result : SearchResult.t) :
  let source := source_of result in
  Source.filename source = SearchResult.filename result ∧
  Source.organization source = SearchResult.organization result ∧
  Source.doc_type source = SearchResult.doc_type result ∧
  Source.geographic_focus source = SearchResult.metadata result !! "geographic_focus" ∧
  (SearchResult.metadata result !! "topics" = None → Source.topics source = JList []) ∧
  (∀ v, SearchResult.metadata result !! "topics" = Some v → Source.topics source = v) ∧
  Qden (Source.similarity_score source) = 1000%positive ∧
  (Source.similarity_score source - (1 # 2000)
     <= SearchResult.similarity_score result)%Q ∧
  (SearchResult.similarity_score result
     <= Source.similarity_score source + (1 # 2000))%Q.
Proof.
  cbn. repeat split; try done.
  - by intros ->.
  - by intros v ->.
  - apply round3_close.
  - apply round3_close.
Qed.
